(** * Tutorial05_TextureArray: the instanced texture-array sample

    A shallow embedding of [src/Tutorial05_TextureArray.cpp]: the texture
    array builder ([LoadTextures]), the instance layout generator
    ([PopulateInstanceBuffer]), the orbit camera ([Update]) and the frame
    renderer ([Render]).

    Single-precision values are IEEE-754 binary32 numbers, taken from the
    standard library's executable specification of floating-point
    arithmetic ([SpecFloat], precision 24, exponent bound 128, rounding to
    nearest even). *)

From Stdlib Require Import ZArith Bool String.
From Stdlib Require Import Floats.SpecFloat.
From Stdlib Require Import Reals Lra.
From stdpp Require Import base list pretty.

Local Open Scope Z_scope.

(** ** Single- and double-precision arithmetic *)

Module F32.
Definition prec : Z := 24.
Definition emax : Z := 128.

Definition add := SFadd prec emax.
Definition sub := SFsub prec emax.
Definition mul := SFmul prec emax.
Definition div := SFdiv prec emax.
Definition sqrt := SFsqrt prec emax.
Definition opp := SFopp.
Definition abs := SFabs.
Definition ltb := SFltb.
Definition leb := SFleb.
Definition valid := valid_binary prec emax.

(** Conversion of an integer, as in [TextureInd = 3] or [Scale(1, 1, 1)]. *)
Definition of_Z (n : Z) : spec_float := binary_normalize prec emax n 0 false.

(** A decimal literal [n/d] with the suffix [f]: the quotient of two
    exactly representable integers, rounded once. *)
Definition lit (n d : Z) : spec_float := div (of_Z n) (of_Z d).
End F32.

Module F64.
Definition prec : Z := 53.
Definition emax : Z := 1024.

Definition div := SFdiv prec emax.
Definition of_Z (n : Z) : spec_float := binary_normalize prec emax n 0 false.
End F64.

Abbreviation float := spec_float (only parsing).

(** [static_cast<float>] of a double, and the implicit conversion of a
    double to [float] in an initialiser: one rounding to binary32. *)
Definition double_to_float (x : spec_float) : float :=
  match x with
  | S754_finite s m e => binary_normalize F32.prec F32.emax (cond_Zopp s (Zpos m)) e s
  | _ => x
  end.

(** Promotion of a [float] to [double] is exact: the value keeps its
    sign, mantissa and exponent. *)
Definition float_to_double (x : float) : spec_float := x.

Declare Scope f32_scope.
Delimit Scope f32_scope with f32.
Infix "+" := F32.add : f32_scope.
Infix "-" := F32.sub : f32_scope.
Infix "*" := F32.mul : f32_scope.
Infix "/" := F32.div : f32_scope.
Notation "- x" := (F32.opp x) : f32_scope.
Infix "<?" := F32.ltb : f32_scope.
Infix "<=?" := F32.leb : f32_scope.

(** ** Constants of the source *)

(** Modelled from the spec: [PI_F] is a constant of the engine's math
    header, which is not among the sources; the spec names it pi, and it
    is taken as the single-precision number nearest to pi,
    [13176795 * 2^-22] (bit pattern 0x40490FDB). *)
Definition PI_F : float := S754_finite false 13176795 (-22).

(** ** Vectors and matrices

    [float3], [float4] and [float4x4] carry the field names the source
    reads and writes ([offset.x], [View._41], ...). *)

Module V3.
Record float3 := mk { x : float; y : float; z : float }.

(** Component-wise [operator+], [operator-] and [operator*(float)]. *)
Definition add (a b : float3) : float3 :=
    mk (x a + x b)%f32 (y a + y b)%f32 (z a + z b)%f32.
Definition sub (a b : float3) : float3 :=
    mk (x a - x b)%f32 (y a - y b)%f32 (z a - z b)%f32.
Definition scale (a : float3) (s : float) : float3 :=
    mk (x a * s)%f32 (y a * s)%f32 (z a * s)%f32.
End V3.
Abbreviation float3 := V3.float3.

Record float4 := { r4 : float; g4 : float; b4 : float; a4 : float }.

Record float4x4 := {
  _11 : float; _12 : float; _13 : float; _14 : float;
  _21 : float; _22 : float; _23 : float; _24 : float;
  _31 : float; _32 : float; _33 : float; _34 : float;
  _41 : float; _42 : float; _43 : float; _44 : float }.

Definition Identity : float4x4 :=
  let o := F32.of_Z 1 in
  let n := F32.of_Z 0 in
  {| _11 := o; _12 := n; _13 := n; _14 := n;
     _21 := n; _22 := o; _23 := n; _24 := n;
     _31 := n; _32 := n; _33 := o; _34 := n;
     _41 := n; _42 := n; _43 := n; _44 := o |}.

(** The value of a default-constructed matrix; every element of the
    instance array is overwritten before it is read. *)
Definition float4x4_default : float4x4 :=
  let n := F32.of_Z 0 in
  {| _11 := n; _12 := n; _13 := n; _14 := n;
     _21 := n; _22 := n; _23 := n; _24 := n;
     _31 := n; _32 := n; _33 := n; _34 := n;
     _41 := n; _42 := n; _43 := n; _44 := n |}.

(** ** The engine and the C library

    The functions below are called by the source and defined outside it
    (the engine's math header, the colour conversion header, libm).  The
    model takes them as an interface; every theorem holds for each
    implementation. *)
Record Engine := {
  cosf : float -> float;
  sinf : float -> float;
  Scale : float -> float -> float -> float4x4;
  Translation : float -> float -> float -> float4x4;
  RotationY : float -> float4x4;
  mat_mul : float4x4 -> float4x4 -> float4x4;
  normalize : float3 -> float3;
  cross : float3 -> float3 -> float3;
  dot : float3 -> float3 -> float;
  LinearToSRGB : float4 -> float4 }.

(** ** Integer types *)

Definition Uint32_modulus : Z := 2 ^ 32.
Definition to_Uint32 (n : Z) : Z := n mod Uint32_modulus.

(** [int] multiplication, wrapped to 32 bits two's complement. *)
Definition to_int (n : Z) : Z :=
  (n + 2 ^ 31) mod Uint32_modulus - 2 ^ 31.
Definition int_mul (a b : Z) : Z := to_int (a * b).

(** ** Instance data *)

Record InstanceData := { Matrix : float4x4; TextureInd : float }.

Definition sizeof_float : Z := 4.
Definition sizeof_float4x4 : Z := 16 * sizeof_float.
(** Both members are 4-byte aligned: the struct has no padding. *)
Definition sizeof_InstanceData : Z := sizeof_float4x4 + sizeof_float.

(** ** GPU commands recorded by the immediate context *)

Inductive BufferId :=
  CubeVertexBuffer | CubeIndexBuffer | InstanceBuffer | VSConstants.

Inductive VALUE_TYPE := VT_UINT32.
Inductive DRAW_FLAGS := DRAW_FLAG_NONE | DRAW_FLAG_VERIFY_ALL.

Record DrawIndexedAttribs := {
  IndexType : VALUE_TYPE;
  NumIndices : Z;
  NumInstances : Z;
  Flags : DRAW_FLAGS }.

Inductive Command :=
| UpdateBuffer (buf : BufferId) (Offset Size : Z) (data : list InstanceData)
| ClearRenderTarget (color : float4)
| ClearDepthStencil (depth : float) (stencil : Z)
| MapWrite (buf : BufferId) (CBConstants : list float4x4)
| SetVertexBuffers (StartSlot : Z) (pBuffs : list BufferId) (offsets : list Z)
| SetIndexBuffer (buf : BufferId) (ByteOffset : Z)
| SetPipelineState
| CommitShaderResources
| DrawIndexed (DrawAttrs : DrawIndexedAttribs).

(** ** Program state

    The camera is the four function-local statics of [Update]; [angle] is
    the file-level static; the [m_] fields are members of the sample. *)

Record CameraState := {
  yaw : float;
  pitch : float;
  distance : float;
  target : float3 }.

Record AppState := {
  m_GridSize : Z;
  m_ConvertPSOutputToGamma : bool;
  m_ViewProjMatrix : float4x4;
  m_RotationMatrix : float4x4;
  angle : float;
  camera : CameraState }.

Definition set_angle (a : float) (st : AppState) : AppState :=
  {| m_GridSize := m_GridSize st;
     m_ConvertPSOutputToGamma := m_ConvertPSOutputToGamma st;
     m_ViewProjMatrix := m_ViewProjMatrix st;
     m_RotationMatrix := m_RotationMatrix st;
     angle := a;
     camera := camera st |}.

Definition set_GridSize (g : Z) (st : AppState) : AppState :=
  {| m_GridSize := g;
     m_ConvertPSOutputToGamma := m_ConvertPSOutputToGamma st;
     m_ViewProjMatrix := m_ViewProjMatrix st;
     m_RotationMatrix := m_RotationMatrix st;
     angle := angle st;
     camera := camera st |}.

Definition set_yaw (v : float) (c : CameraState) : CameraState :=
  {| yaw := v; pitch := pitch c; distance := distance c; target := target c |}.
Definition set_pitch (v : float) (c : CameraState) : CameraState :=
  {| yaw := yaw c; pitch := v; distance := distance c; target := target c |}.
Definition set_distance (v : float) (c : CameraState) : CameraState :=
  {| yaw := yaw c; pitch := pitch c; distance := v; target := target c |}.
Definition set_target (v : float3) (c : CameraState) : CameraState :=
  {| yaw := yaw c; pitch := pitch c; distance := distance c; target := v |}.

(** [static float angle = (PI_F / 1.0);]: the quotient is taken in double
    precision and converted to [float]. *)
Definition angle_init : float :=
  double_to_float (F64.div (float_to_double PI_F) (F64.of_Z 1)).

(** The initialisers of the statics of [Update]. *)
Definition camera_init : CameraState :=
  {| yaw := F32.lit 0 1;
     pitch := F32.lit 0 1;
     distance := F32.lit 20 1;
     target := V3.mk (F32.lit 0 1) (- F32.lit 4 1)%f32 (F32.lit 0 1) |}.

(** The state at process start.  The grid size, the gamma flag and the
    two matrices are members declared and initialised outside the
    source. *)
Definition initial_state (g : Z) (gamma : bool) (vp rot : float4x4) : AppState :=
  {| m_GridSize := g;
     m_ConvertPSOutputToGamma := gamma;
     m_ViewProjMatrix := vp;
     m_RotationMatrix := rot;
     angle := angle_init;
     camera := camera_init |}.

(** A literal [n#d] denotes the [float] nearest to the decimal [n/d]:
    [5#1000] is [0.005f], [157#100] is [1.57f]. *)
Notation "n # d" := (F32.lit n%Z d%Z) (at level 55, no associativity) : f32_scope.

(** ** What the user interface and the window report during one call of
    [Update] *)

Inductive ViewButton :=
| FrontRight | TopRight | FrontLeft
| Right | Up | Front | Left | Down | Back
| RightBottom | DownLeft | LeftBottom.

Record FrameInput := {
  (** [ImGui::IsMouseDragging(ImGuiMouseButton_Left)] *)
  IsMouseDragging : bool;
  (** [ImGui::GetMouseDragDelta(ImGuiMouseButton_Left)], fields x and y *)
  dragDelta_x : float;
  dragDelta_y : float;
  (** [ImGui::GetIO().MouseWheel] *)
  MouseWheel : float;
  (** [ImGui::IsKeyDown] of the four arrow keys *)
  KeyUpArrow : bool;
  KeyDownArrow : bool;
  KeyRightArrow : bool;
  KeyLeftArrow : bool;
  (** [ImGui::Button] of each view button *)
  Button : ViewButton -> bool;
  (** the argument [ElapsedTime], a double *)
  ElapsedTime : spec_float;
  (** the results of [GetSurfacePretransformMatrix] and
      [GetAdjustedProjectionMatrix], which read the swap chain *)
  GetSurfacePretransformMatrix : float3 -> float4x4;
  GetAdjustedProjectionMatrix : float -> float -> float -> float4x4 }.

(** ** The sample *)

Section Sample.
Variable E : Engine.

Local Open Scope f32_scope.
Local Notation "A ** B" := (mat_mul E A B) (at level 40, left associativity).
Local Abbreviation Scale := (Scale E).
Local Abbreviation Translation := (Translation E).
Local Abbreviation RotationY := (RotationY E).

(** *** [PopulateInstanceBuffer] (lines 203-281) *)

Definition set_Matrix (i : nat) (m : float4x4) (a : list InstanceData) :=
  alter (fun d => {| Matrix := m; TextureInd := TextureInd d |}) i a.

Definition set_TextureInd (i : nat) (t : float) (a : list InstanceData) :=
  alter (fun d => {| Matrix := Matrix d; TextureInd := t |}) i a.

Definition PopulateInstanceBuffer (st : AppState) : AppState * list Command :=
  let NumInstances := 22%Z in
  let a := replicate (Z.to_nat NumInstances)
             {| Matrix := float4x4_default; TextureInd := F32.of_Z 0 |} in
  let angle := angle st + (3#1000) in
  let one := F32.of_Z 1 in
  let a := set_Matrix 0 (Scale (5#1) (1#10) (1#100) ** Translation (0#1) (0#1) (0#1) ** RotationY angle) a in
  let a := set_TextureInd 0 (F32.of_Z 3) a in
  let a := set_Matrix 1 (Scale (1#100) (1#10) (5#1) ** Translation (0#1) (0#1) (0#1) ** RotationY angle) a in
  let a := set_TextureInd 1 (F32.of_Z 3) a in
  let a := set_Matrix 2 (Scale (1#10) (1#1) (1#100) ** Translation (- (5#1)) (- (1#1)) (0#1) ** RotationY angle) a in
  let a := set_TextureInd 2 (F32.of_Z 3) a in
  let a := set_Matrix 3 (Scale (1#10) (1#1) (1#100) ** Translation (5#1) (- (1#1)) (0#1) ** RotationY angle) a in
  let a := set_TextureInd 3 (F32.of_Z 3) a in
  let a := set_Matrix 4 (Scale (1#10) (1#1) (1#100) ** Translation (0#1) (1#1) (0#1) ** RotationY angle) a in
  let a := set_TextureInd 4 (F32.of_Z 3) a in
  let a := set_Matrix 5 (Scale (5#100) (1#1) (1#100) ** Translation (0#1) (- (1#1)) (- (5#1)) ** RotationY angle) a in
  let a := set_TextureInd 5 (F32.of_Z 3) a in
  let a := set_Matrix 6 (Scale (5#100) (1#1) (1#100) ** Translation (0#1) (- (1#1)) (5#1) ** RotationY angle) a in
  let a := set_TextureInd 6 (F32.of_Z 3) a in
  let a := set_Matrix 7 (Scale one one one ** Translation (- (5#1)) (- (2#1)) (0#1) ** RotationY angle) a in
  let a := set_TextureInd 7 (F32.of_Z 0) a in
  let a := set_Matrix 8 (Scale one one one ** Translation (5#1) (- (2#1)) (0#1) ** RotationY angle) a in
  let a := set_TextureInd 8 (F32.of_Z 2) a in
  let a := set_Matrix 9 (Scale one one one ** Translation (0#1) (- (2#1)) (- (5#1)) ** RotationY angle) a in
  let a := set_TextureInd 9 (F32.of_Z 1) a in
  let a := set_Matrix 10 (Scale one one one ** Translation (0#1) (- (2#1)) (5#1) ** RotationY angle) a in
  let a := set_TextureInd 10 (F32.of_Z 0) a in
  let a := set_Matrix 11 (Scale (3#1) (5#100) (1#100) ** Translation (0#1) (- (5#1)) (0#1) ** RotationY angle) a in
  let a := set_TextureInd 11 (F32.of_Z 3) a in
  let a := set_Matrix 12 (Scale (1#100) (5#100) (3#1) ** Translation (0#1) (- (5#1)) (0#1) ** RotationY angle) a in
  let a := set_TextureInd 12 (F32.of_Z 3) a in
  let a := set_Matrix 13 (Scale (5#100) (4#1) (1#100) ** Translation (0#1) (- (1#1)) (0#1) ** RotationY angle) a in
  let a := set_TextureInd 13 (F32.of_Z 3) a in
  let a := set_Matrix 14 (Scale (5#100) (1#1) (1#100) ** Translation (- (3#1)) (- (6#1)) (0#1) ** RotationY angle) a in
  let a := set_TextureInd 14 (F32.of_Z 3) a in
  let a := set_Matrix 15 (Scale (5#100) (1#1) (1#100) ** Translation (3#1) (- (6#1)) (0#1) ** RotationY angle) a in
  let a := set_TextureInd 15 (F32.of_Z 3) a in
  let a := set_Matrix 16 (Scale (5#100) (1#1) (1#100) ** Translation (0#1) (- (6#1)) (3#1) ** RotationY angle) a in
  let a := set_TextureInd 16 (F32.of_Z 3) a in
  let a := set_Matrix 17 (Scale (5#100) (1#1) (1#100) ** Translation (0#1) (- (6#1)) (- (3#1)) ** RotationY angle) a in
  let a := set_TextureInd 17 (F32.of_Z 3) a in
  let a := set_Matrix 18 (Scale one one one ** Translation (- (3#1)) (- (7#1)) (0#1) ** RotationY angle) a in
  let a := set_TextureInd 18 (F32.of_Z 1) a in
  let a := set_Matrix 19 (Scale one one one ** Translation (3#1) (- (7#1)) (0#1) ** RotationY angle) a in
  let a := set_TextureInd 19 (F32.of_Z 0) a in
  let a := set_Matrix 20 (Scale one one one ** Translation (0#1) (- (7#1)) (3#1) ** RotationY angle) a in
  let a := set_TextureInd 20 (F32.of_Z 2) a in
  let a := set_Matrix 21 (Scale one one one ** Translation (0#1) (- (7#1)) (- (3#1)) ** RotationY angle) a in
  let a := set_TextureInd 21 (F32.of_Z 1) a in
  let DataSize := to_Uint32 (sizeof_InstanceData * Z.of_nat (length a)) in
  (set_angle angle st, [UpdateBuffer InstanceBuffer 0 DataSize a]).

(** *** [UpdateUI] (lines 174-185)

    [slider] is [Some g] when [ImGui::SliderInt] reports a change and
    has stored [g] in [m_GridSize]. *)
Definition UpdateUI (slider : option Z) (st : AppState) : AppState * list Command :=
  match slider with
  | Some g => PopulateInstanceBuffer (set_GridSize g st)
  | None => (st, [])
  end.

(** *** [Render] (lines 285-329) *)
Definition Render (st : AppState) : AppState * list Command :=
  let ClearColor := {| r4 := 0#1; g4 := 0#1; b4 := 0#1; a4 := 1#1 |} in
  let '(st, upload) := PopulateInstanceBuffer st in
  let ClearColor :=
    if m_ConvertPSOutputToGamma st then LinearToSRGB E ClearColor else ClearColor in
  let DrawAttrs :=
    {| IndexType := VT_UINT32;
       NumIndices := 36;
       NumInstances :=
         to_Uint32 (int_mul (int_mul (m_GridSize st) (m_GridSize st)) (m_GridSize st));
       Flags := DRAW_FLAG_VERIFY_ALL |} in
  (st,
   upload ++
   [ ClearRenderTarget ClearColor;
     ClearDepthStencil (1#1) 0;
     MapWrite VSConstants [m_ViewProjMatrix st; m_RotationMatrix st];
     SetVertexBuffers 0 [CubeVertexBuffer; InstanceBuffer] [0%Z; 0%Z];
     SetIndexBuffer CubeIndexBuffer 0;
     SetPipelineState;
     CommitShaderResources;
     DrawIndexed DrawAttrs ]).
End Sample.

(** ** The orbit camera: [Update] (lines 331-509) *)

Section Camera.
Variable E : Engine.

Local Open Scope f32_scope.
Local Notation "A ** B" := (mat_mul E A B) (at level 40, left associativity).

Definition sensitivity : float := 5#1000.
Definition pitchLimit : float := (157#100) * (99#100).

(** Lines 342-347: a drag of the left mouse button. *)
Definition drag_block (inp : FrameInput) (c : CameraState) : CameraState :=
  if IsMouseDragging inp
  then set_yaw (yaw c + dragDelta_x inp * sensitivity) c
  else c.

(** Lines 349-353: the pitch clamp. *)
Definition clamp_pitch_block (c : CameraState) : CameraState :=
  let c := if pitchLimit <? pitch c then set_pitch pitchLimit c else c in
  if pitch c <? - pitchLimit then set_pitch (- pitchLimit) c else c.

(** Lines 355-361: the mouse wheel. *)
Definition wheel_block (inp : FrameInput) (c : CameraState) : CameraState :=
  let wheel := MouseWheel inp in
  if (0#1) <? F32.abs wheel then
    let c := set_distance (distance c - wheel * (2#1)) c in
    let c := if distance c <? (1#1) then set_distance (1#1) c else c in
    if (100#1) <? distance c then set_distance (100#1) c else c
  else c.

(** Lines 363-371: the offset of the eye from the target and the camera
    basis. *)
Record Basis := {
  offset : float3;
  forward : float3;
  right : float3;
  camUp : float3 }.

Definition orbit_offset (c : CameraState) : float3 :=
  V3.mk (distance c * cosf E (pitch c) * sinf E (yaw c))
        (distance c * sinf E (pitch c))
        (distance c * cosf E (pitch c) * cosf E (yaw c)).

Definition orbit_basis (c : CameraState) : Basis :=
  let offset := orbit_offset c in
  let cameraPos := V3.add (target c) offset in
  let forward := normalize E (V3.sub (target c) cameraPos) in
  let right := normalize E (cross E (V3.mk (0#1) (1#1) (0#1)) forward) in
  let camUp := cross E forward right in
  {| offset := offset; forward := forward; right := right; camUp := camUp |}.

(** Lines 373-381: panning with the arrow keys. *)
Definition pan_block (inp : FrameInput) (b : Basis) (c : CameraState) : CameraState :=
  let panSpeed := (5#1) * double_to_float (ElapsedTime inp) in
  let c := if KeyUpArrow inp
           then set_target (V3.add (target c) (V3.scale (camUp b) panSpeed)) c else c in
  let c := if KeyDownArrow inp
           then set_target (V3.sub (target c) (V3.scale (camUp b) panSpeed)) c else c in
  let c := if KeyRightArrow inp
           then set_target (V3.add (target c) (V3.scale (right b) panSpeed)) c else c in
  if KeyLeftArrow inp
  then set_target (V3.sub (target c) (V3.scale (right b) panSpeed)) c else c.

(** Lines 385-401: the view matrix. *)
Definition view_matrix (b : Basis) (cameraPos : float3) : float4x4 :=
  {| _11 := V3.x (right b);
     _12 := V3.x (camUp b);
     _13 := V3.x (forward b);
     _14 := 0#1;
     _21 := V3.y (right b);
     _22 := V3.y (camUp b);
     _23 := V3.y (forward b);
     _24 := 0#1;
     _31 := V3.z (right b);
     _32 := V3.z (camUp b);
     _33 := V3.z (forward b);
     _34 := 0#1;
     _41 := - dot E (right b) cameraPos;
     _42 := - dot E (camUp b) cameraPos;
     _43 := - dot E (forward b) cameraPos;
     _44 := 1#1 |}.

(** Lines 417-497: the view buttons, in the order of the source. *)
Definition on_button (inp : FrameInput) (b : ViewButton) (y p : float)
    (c : CameraState) : CameraState :=
  if Button inp b then set_pitch p (set_yaw y c) else c.

Definition preset_block (inp : FrameInput) (c : CameraState) : CameraState :=
  let c := on_button inp FrontRight (PI_F / (4#1)) (PI_F / (4#1)) c in
  let c := on_button inp TopRight (0#1) (PI_F / (4#1)) c in
  let c := on_button inp FrontLeft (- PI_F / (4#1)) (PI_F / (4#1)) c in
  let c := on_button inp Right (PI_F / (2#1)) (0#1) c in
  let c := on_button inp Up (0#1) (PI_F / (2#1)) c in
  let c := on_button inp Front (0#1) (0#1) c in
  let c := on_button inp Left (- PI_F / (2#1)) (0#1) c in
  let c := on_button inp Down (0#1) (- PI_F / (2#1)) c in
  let c := on_button inp Back PI_F (0#1) c in
  let c := on_button inp RightBottom (PI_F / (4#1)) (- PI_F / (4#1)) c in
  let c := on_button inp DownLeft (0#1) (- PI_F / (4#1)) c in
  on_button inp LeftBottom (- PI_F / (4#1)) (- PI_F / (4#1)) c.

(** The call of [SampleBase::Update] on line 333 belongs to the engine; the
    only part of the sample it can reach is the callback [UpdateUI], which
    the frame loop below delivers as an event of its own. *)
Definition Update (inp : FrameInput) (st : AppState) : AppState :=
  let c := drag_block inp (camera st) in
  let c := clamp_pitch_block c in
  let c := wheel_block inp c in
  let b := orbit_basis c in
  let c := pan_block inp b c in
  let cameraPos := V3.add (target c) (offset b) in
  let View := view_matrix b cameraPos in
  let SrfPreTransform :=
    GetSurfacePretransformMatrix inp (V3.mk (F32.of_Z 0) (F32.of_Z 0) (F32.of_Z 1)) in
  let Proj := GetAdjustedProjectionMatrix inp (PI_F / (4#1)) (1#10) (100#1) in
  let c := preset_block inp c in
  {| m_GridSize := m_GridSize st;
     m_ConvertPSOutputToGamma := m_ConvertPSOutputToGamma st;
     m_ViewProjMatrix := View ** SrfPreTransform ** Proj;
     m_RotationMatrix := Identity;
     angle := angle st;
     camera := c |}.

(** The camera state the view of a frame is derived from: the statics
    after the drag, the clamp and the wheel of that call of [Update]. *)
Definition view_camera (inp : FrameInput) (c : CameraState) : CameraState :=
  wheel_block inp (clamp_pitch_block (drag_block inp c)).

(** ** The frame loop: calls of the engine into the sample *)

Inductive Event :=
| EvUpdateUI (slider : option Z)
| EvUpdate (inp : FrameInput)
| EvRender.

Definition step (ev : Event) (st : AppState) : AppState * list Command :=
  match ev with
  | EvUpdateUI slider => UpdateUI E slider st
  | EvUpdate inp => (Update inp st, [])
  | EvRender => Render E st
  end.

Fixpoint run (evs : list Event) (st : AppState) : AppState * list Command :=
  match evs with
  | [] => (st, [])
  | ev :: evs =>
      let '(st, cmds) := step ev st in
      let '(st, cmds') := run evs st in
      (st, cmds ++ cmds')
  end.

(** [k] successive calls of [PopulateInstanceBuffer]; the result is the
    state and the upload of the last call. *)
Fixpoint populate_times (k : nat) (st : AppState) : AppState * list Command :=
  match k with
  | O => (st, [])
  | S k => let '(st, _) := populate_times k st in PopulateInstanceBuffer E st
  end.
End Camera.

(** ** The texture array builder: [LoadTextures] (lines 129-172) *)

Inductive RESOURCE_DIMENSION :=
  RESOURCE_DIM_UNDEFINED | RESOURCE_DIM_TEX_2D | RESOURCE_DIM_TEX_2D_ARRAY.
Inductive USAGE := USAGE_IMMUTABLE | USAGE_DEFAULT | USAGE_DYNAMIC.
Inductive BIND_FLAGS := BIND_NONE | BIND_SHADER_RESOURCE.

(** The fields of the engine's texture description that the source reads
    or writes, and the dimensions and format the loader reports. *)
Record TextureDesc := {
  Type_ : RESOURCE_DIMENSION;
  Width : Z;
  Height : Z;
  ArraySize : Z;
  Format : Z;
  MipLevels : Z;
  Usage : USAGE;
  BindFlags : BIND_FLAGS }.

#[global] Instance RESOURCE_DIMENSION_eq_dec : EqDecision RESOURCE_DIMENSION.
Proof. solve_decision. Defined.
#[global] Instance USAGE_eq_dec : EqDecision USAGE.
Proof. solve_decision. Defined.
#[global] Instance BIND_FLAGS_eq_dec : EqDecision BIND_FLAGS.
Proof. solve_decision. Defined.
(** [operator==] of two texture descriptions. *)
#[global] Instance TextureDesc_eq_dec : EqDecision TextureDesc.
Proof. solve_decision. Defined.

Section TextureArray.
(** The subresource descriptor (data pointer and strides) is copied as a
    whole and never inspected. *)
Context {TextureSubResData : Type} `{Inhabited TextureSubResData}.

Record ITextureLoader := {
  GetTextureDesc : TextureDesc;
  GetSubresourceData : Z -> Z -> TextureSubResData }.

#[global] Instance ITextureLoader_inhabited : Inhabited ITextureLoader :=
  populate {| GetTextureDesc :=
                {| Type_ := RESOURCE_DIM_UNDEFINED; Width := 0; Height := 0;
                   ArraySize := 0; Format := 0; MipLevels := 0;
                   Usage := USAGE_IMMUTABLE; BindFlags := BIND_NONE |};
              GetSubresourceData := fun _ _ => inhabitant |}.

Record TextureData := {
  pSubResources : list TextureSubResData;
  NumSubresources : Z }.

(** [CreateTextureLoaderFromFile]: the asset files, by name; [None] is a
    null loader. *)
Variable CreateTextureLoaderFromFile : string -> option ITextureLoader.

Definition FileName (tex : Z) : string :=
  ("DGLogo" +:+ pretty tex +:+ ".png")%string.

(** Lines 133-145.  A failed [VERIFY_EXPR] or [VERIFY] ends the run:
    the result is [None]. *)
Definition load_loaders (NumTextures : Z) : option (list ITextureLoader) :=
  foldl (fun acc tex =>
           TexLoaders ← acc;
           loader ← CreateTextureLoaderFromFile (FileName tex);
           let TexLoaders := TexLoaders ++ [loader] in
           first ← head TexLoaders;
           if decide (tex = 0 \/ GetTextureDesc loader = GetTextureDesc first)
           then Some TexLoaders else None)
        (Some []) (seqZ 0 NumTextures).

Definition set_array_fields (NumTextures : Z) (d : TextureDesc) : TextureDesc :=
  {| Type_ := RESOURCE_DIM_TEX_2D_ARRAY;
     Width := Width d;
     Height := Height d;
     ArraySize := to_Uint32 NumTextures;
     Format := Format d;
     MipLevels := MipLevels d;
     Usage := USAGE_DEFAULT;
     BindFlags := BIND_SHADER_RESOURCE |}.

(** Lines 154-161.  A store outside the vector is undefined in the
    source and leaves the list unchanged here. *)
Definition fill_SubresData (TexLoaders : list ITextureLoader) (TexArrDesc : TextureDesc)
    : list TextureSubResData :=
  let SubresData :=
    replicate (Z.to_nat (to_Uint32 (ArraySize TexArrDesc * MipLevels TexArrDesc)))
              inhabitant in
  foldl (fun SubresData slice =>
           foldl (fun SubresData mip =>
                    <[ Z.to_nat (to_Uint32 (slice * MipLevels TexArrDesc + mip)) :=
                         GetSubresourceData (TexLoaders !!! Z.to_nat slice) mip 0 ]>
                      SubresData)
                 SubresData (seqZ 0 (MipLevels TexArrDesc)))
        SubresData (seqZ 0 (ArraySize TexArrDesc)).

(** The arguments of [CreateTexture]: the array description and its
    initialisation data. *)
Definition LoadTextures (NumTextures : Z) : option (TextureDesc * TextureData) :=
  TexLoaders ← load_loaders NumTextures;
  first ← head TexLoaders;
  let TexArrDesc := set_array_fields NumTextures (GetTextureDesc first) in
  let SubresData := fill_SubresData TexLoaders TexArrDesc in
  let InitData :=
    {| pSubResources := SubresData;
       NumSubresources := to_Uint32 (MipLevels TexArrDesc * ArraySize TexArrDesc) |} in
  Some (TexArrDesc, InitData).
End TextureArray.

(** ** A reference implementation of the engine interface

    Used to run the model on concrete inputs.  The vector and matrix
    functions are the usual row-vector ones, evaluated in single
    precision.  [cosf] and [sinf] are tabulated at zero, where their
    values are exact, and the gamma curve on its linear segment; outside
    these points the table has no entry and answers NaN. *)

Module Reference.
Local Open Scope f32_scope.

Definition cosf (a : float) : float :=
  match a with S754_zero _ => 1#1 | _ => S754_nan end.

Definition sinf (a : float) : float :=
  match a with S754_zero _ => a | _ => S754_nan end.

Definition Scale (sx sy sz : float) : float4x4 :=
  let o := F32.of_Z 1 in
  let n := F32.of_Z 0 in
  {| _11 := sx; _12 := n; _13 := n; _14 := n;
     _21 := n; _22 := sy; _23 := n; _24 := n;
     _31 := n; _32 := n; _33 := sz; _34 := n;
     _41 := n; _42 := n; _43 := n; _44 := o |}.

Definition Translation (tx ty tz : float) : float4x4 :=
  let o := F32.of_Z 1 in
  let n := F32.of_Z 0 in
  {| _11 := o; _12 := n; _13 := n; _14 := n;
     _21 := n; _22 := o; _23 := n; _24 := n;
     _31 := n; _32 := n; _33 := o; _34 := n;
     _41 := tx; _42 := ty; _43 := tz; _44 := o |}.

Definition RotationY (a : float) : float4x4 :=
  let o := F32.of_Z 1 in
  let n := F32.of_Z 0 in
  let s := sinf a in
  let c := cosf a in
  {| _11 := c; _12 := n; _13 := - s; _14 := n;
     _21 := n; _22 := o; _23 := n; _24 := n;
     _31 := s; _32 := n; _33 := c; _34 := n;
     _41 := n; _42 := n; _43 := n; _44 := o |}.

Definition entry (a1 a2 a3 a4 b1 b2 b3 b4 : float) : float :=
  F32.of_Z 0 + a1 * b1 + a2 * b2 + a3 * b3 + a4 * b4.

Definition mat_mul (a b : float4x4) : float4x4 :=
  {| _11 := entry (_11 a) (_12 a) (_13 a) (_14 a) (_11 b) (_21 b) (_31 b) (_41 b);
     _12 := entry (_11 a) (_12 a) (_13 a) (_14 a) (_12 b) (_22 b) (_32 b) (_42 b);
     _13 := entry (_11 a) (_12 a) (_13 a) (_14 a) (_13 b) (_23 b) (_33 b) (_43 b);
     _14 := entry (_11 a) (_12 a) (_13 a) (_14 a) (_14 b) (_24 b) (_34 b) (_44 b);
     _21 := entry (_21 a) (_22 a) (_23 a) (_24 a) (_11 b) (_21 b) (_31 b) (_41 b);
     _22 := entry (_21 a) (_22 a) (_23 a) (_24 a) (_12 b) (_22 b) (_32 b) (_42 b);
     _23 := entry (_21 a) (_22 a) (_23 a) (_24 a) (_13 b) (_23 b) (_33 b) (_43 b);
     _24 := entry (_21 a) (_22 a) (_23 a) (_24 a) (_14 b) (_24 b) (_34 b) (_44 b);
     _31 := entry (_31 a) (_32 a) (_33 a) (_34 a) (_11 b) (_21 b) (_31 b) (_41 b);
     _32 := entry (_31 a) (_32 a) (_33 a) (_34 a) (_12 b) (_22 b) (_32 b) (_42 b);
     _33 := entry (_31 a) (_32 a) (_33 a) (_34 a) (_13 b) (_23 b) (_33 b) (_43 b);
     _34 := entry (_31 a) (_32 a) (_33 a) (_34 a) (_14 b) (_24 b) (_34 b) (_44 b);
     _41 := entry (_41 a) (_42 a) (_43 a) (_44 a) (_11 b) (_21 b) (_31 b) (_41 b);
     _42 := entry (_41 a) (_42 a) (_43 a) (_44 a) (_12 b) (_22 b) (_32 b) (_42 b);
     _43 := entry (_41 a) (_42 a) (_43 a) (_44 a) (_13 b) (_23 b) (_33 b) (_43 b);
     _44 := entry (_41 a) (_42 a) (_43 a) (_44 a) (_14 b) (_24 b) (_34 b) (_44 b) |}.

Definition dot (a b : float3) : float :=
  V3.x a * V3.x b + V3.y a * V3.y b + V3.z a * V3.z b.

Definition cross (a b : float3) : float3 :=
  V3.mk (V3.y a * V3.z b - V3.z a * V3.y b)
        (V3.z a * V3.x b - V3.x a * V3.z b)
        (V3.x a * V3.y b - V3.y a * V3.x b).

Definition normalize (a : float3) : float3 :=
  let len := F32.sqrt (dot a a) in
  V3.mk (V3.x a / len) (V3.y a / len) (V3.z a / len).

Definition gamma_channel (v : float) : float :=
  if v <=? (31308#10000000) then v * (1292#100) else S754_nan.

Definition LinearToSRGB (c : float4) : float4 :=
  {| r4 := gamma_channel (r4 c);
     g4 := gamma_channel (g4 c);
     b4 := gamma_channel (b4 c);
     a4 := a4 c |}.

Definition engine : Engine :=
  Build_Engine cosf sinf Scale Translation RotationY mat_mul
               normalize cross dot LinearToSRGB.

(** A frame with no input: nothing dragged, scrolled, held or pressed;
    [dt] seconds elapsed; an unrotated surface and a given projection. *)
Definition idle (dt : spec_float) (proj : float4x4) : FrameInput :=
  {| IsMouseDragging := false;
     dragDelta_x := 0#1;
     dragDelta_y := 0#1;
     MouseWheel := 0#1;
     KeyUpArrow := false;
     KeyDownArrow := false;
     KeyRightArrow := false;
     KeyLeftArrow := false;
     Button := fun _ => false;
     ElapsedTime := dt;
     GetSurfacePretransformMatrix := fun _ => Identity;
     GetAdjustedProjectionMatrix := fun _ _ _ => proj |}.

Definition with_drag (dx dy : float) (inp : FrameInput) : FrameInput :=
  {| IsMouseDragging := true;
     dragDelta_x := dx;
     dragDelta_y := dy;
     MouseWheel := MouseWheel inp;
     KeyUpArrow := KeyUpArrow inp;
     KeyDownArrow := KeyDownArrow inp;
     KeyRightArrow := KeyRightArrow inp;
     KeyLeftArrow := KeyLeftArrow inp;
     Button := Button inp;
     ElapsedTime := ElapsedTime inp;
     GetSurfacePretransformMatrix := GetSurfacePretransformMatrix inp;
     GetAdjustedProjectionMatrix := GetAdjustedProjectionMatrix inp |}.

Definition with_wheel (w : float) (inp : FrameInput) : FrameInput :=
  {| IsMouseDragging := IsMouseDragging inp;
     dragDelta_x := dragDelta_x inp;
     dragDelta_y := dragDelta_y inp;
     MouseWheel := w;
     KeyUpArrow := KeyUpArrow inp;
     KeyDownArrow := KeyDownArrow inp;
     KeyRightArrow := KeyRightArrow inp;
     KeyLeftArrow := KeyLeftArrow inp;
     Button := Button inp;
     ElapsedTime := ElapsedTime inp;
     GetSurfacePretransformMatrix := GetSurfacePretransformMatrix inp;
     GetAdjustedProjectionMatrix := GetAdjustedProjectionMatrix inp |}.

Definition is_Up (b : ViewButton) : bool :=
  match b with Up => true | _ => false end.

Definition with_button (pressed : ViewButton -> bool) (inp : FrameInput) : FrameInput :=
  {| IsMouseDragging := IsMouseDragging inp;
     dragDelta_x := dragDelta_x inp;
     dragDelta_y := dragDelta_y inp;
     MouseWheel := MouseWheel inp;
     KeyUpArrow := KeyUpArrow inp;
     KeyDownArrow := KeyDownArrow inp;
     KeyRightArrow := KeyRightArrow inp;
     KeyLeftArrow := KeyLeftArrow inp;
     Button := pressed;
     ElapsedTime := ElapsedTime inp;
     GetSurfacePretransformMatrix := GetSurfacePretransformMatrix inp;
     GetAdjustedProjectionMatrix := GetAdjustedProjectionMatrix inp |}.

(** The state at process start with a grid of side [g]. *)
Definition start (g : Z) : AppState :=
  initial_state g false float4x4_default float4x4_default.
End Reference.

(** ** Real values of single-precision numbers *)

(** The real number a finite [float] stands for; zero for the others, which
    [is_finite] tells apart. *)
Definition SF2R (v : spec_float) : R :=
  match v with
  | S754_finite s m e => (IZR (cond_Zopp s (Zpos m)) * powerRZ 2 e)%R
  | _ => 0%R
  end.

Definition is_finite (v : spec_float) : bool :=
  match v with
  | S754_finite _ _ _ | S754_zero _ => true
  | _ => false
  end.

(** [lo <= v <= hi] in the order of the floats; false when [v] is NaN. *)
Definition in_range (lo hi v : float) : bool :=
  F32.leb lo v && F32.leb v hi.

(** ** Vocabulary of the specification *)

Definition is_draw (c : Command) : bool :=
  match c with DrawIndexed _ => true | _ => false end.

Definition is_upload (c : Command) : bool :=
  match c with UpdateBuffer _ _ _ _ => true | _ => false end.

(** The second matrix of every write of the uniform constants in a
    command stream is [m]. *)
Definition second_constant_is (m : float4x4) (cmds : list Command) : Prop :=
  Forall (fun c => match c with
                   | MapWrite _ CBConstants => CBConstants !! 1%nat = Some m
                   | _ => True
                   end) cmds.

(** The hand-authored scene as a table: scale, translation and texture
    layer of each of the 22 parts, to be compared with what
    [PopulateInstanceBuffer] writes. *)
Record Part := {
  part_scale : float * float * float;
  part_translation : float * float * float;
  part_layer : Z }.

Definition part (sx sy sz tx ty tz : float) (layer : Z) : Part :=
  {| part_scale := (sx, sy, sz); part_translation := (tx, ty, tz); part_layer := layer |}.

Definition scene : list Part :=
  let one := F32.of_Z 1 in
  [ part (5#1) (1#10) (1#100)    (0#1) (0#1) (0#1)                3;
    part (1#100) (1#10) (5#1)    (0#1) (0#1) (0#1)                3;
    part (1#10) (1#1) (1#100)    (- (5#1)) (- (1#1)) (0#1)        3;
    part (1#10) (1#1) (1#100)    (5#1) (- (1#1)) (0#1)            3;
    part (1#10) (1#1) (1#100)    (0#1) (1#1) (0#1)                3;
    part (5#100) (1#1) (1#100)   (0#1) (- (1#1)) (- (5#1))        3;
    part (5#100) (1#1) (1#100)   (0#1) (- (1#1)) (5#1)            3;
    part one one one             (- (5#1)) (- (2#1)) (0#1)        0;
    part one one one             (5#1) (- (2#1)) (0#1)            2;
    part one one one             (0#1) (- (2#1)) (- (5#1))        1;
    part one one one             (0#1) (- (2#1)) (5#1)            0;
    part (3#1) (5#100) (1#100)   (0#1) (- (5#1)) (0#1)            3;
    part (1#100) (5#100) (3#1)   (0#1) (- (5#1)) (0#1)            3;
    part (5#100) (4#1) (1#100)   (0#1) (- (1#1)) (0#1)            3;
    part (5#100) (1#1) (1#100)   (- (3#1)) (- (6#1)) (0#1)        3;
    part (5#100) (1#1) (1#100)   (3#1) (- (6#1)) (0#1)            3;
    part (5#100) (1#1) (1#100)   (0#1) (- (6#1)) (3#1)            3;
    part (5#100) (1#1) (1#100)   (0#1) (- (6#1)) (- (3#1))        3;
    part one one one             (- (3#1)) (- (7#1)) (0#1)        1;
    part one one one             (3#1) (- (7#1)) (0#1)            0;
    part one one one             (0#1) (- (7#1)) (3#1)            2;
    part one one one             (0#1) (- (7#1)) (- (3#1))        1 ]%f32.

(** The record of a part when the shared angle is [a]:
    [Scale * Translation * RotationY(a)] and the layer as a [float]. *)
Definition instance_of (E : Engine) (a : float) (p : Part) : InstanceData :=
  let '(sx, sy, sz) := part_scale p in
  let '(tx, ty, tz) := part_translation p in
  {| Matrix := mat_mul E (mat_mul E (Scale E sx sy sz) (Translation E tx ty tz))
                       (RotationY E a);
     TextureInd := F32.of_Z (part_layer p) |}.

(** One advance of the shared angle. *)
Definition advance (a : float) : float := (a + (3#1000))%f32.

(** [v] clamped to [lo, hi] the way the source does it: two successive
    tests. *)
Definition clamp (lo hi v : float) : float :=
  let v := if (v <? lo)%f32 then lo else v in
  if (hi <? v)%f32 then hi else v.

(** The values the pitch static can hold. *)
Definition pitch_values : list float :=
  [ (0#1); PI_F / (4#1); - PI_F / (4#1); PI_F / (2#1); - PI_F / (2#1);
    pitchLimit; - pitchLimit ]%f32.

(** The values it can hold after the clamp of lines 349-353. *)
Definition clamped_pitch_values : list float :=
  [ (0#1); PI_F / (4#1); - PI_F / (4#1); pitchLimit; - pitchLimit ]%f32.

(** No arrow key is held, the wheel is at rest and no view button is
    pressed. *)
Definition only_pointer (inp : FrameInput) : Prop :=
  ((0#1) <? F32.abs (MouseWheel inp))%f32 = false /\
  KeyUpArrow inp = false /\ KeyDownArrow inp = false /\
  KeyRightArrow inp = false /\ KeyLeftArrow inp = false /\
  forall b, Button inp b = false.

Definition no_key (inp : FrameInput) : Prop :=
  KeyUpArrow inp = false /\ KeyDownArrow inp = false /\
  KeyRightArrow inp = false /\ KeyLeftArrow inp = false.

(** The instance records a command stream uploads. *)
Definition uploaded (cmds : list Command) : list InstanceData :=
  flat_map (fun c => match c with UpdateBuffer _ _ _ data => data | _ => [] end) cmds.

(** The invariant of the camera statics: the pitch is one of its seven
    possible values and the distance is within [1, 100]. *)
Definition camera_ok (c : CameraState) : Prop :=
  In (pitch c) pitch_values /\ in_range (1#1)%f32 (100#1)%f32 (distance c) = true.

(** View buttons: only [Up] is pressed. *)
Definition press_Up : FrameInput :=
  Reference.with_button Reference.is_Up (Reference.idle (F64.of_Z 0) Identity).

(** Four logo files of 256 by 256 texels with three mip levels; the
    subresource of a file is named by the file index and the mip level. *)
Module Demo.
Definition desc : TextureDesc :=
  {| Type_ := RESOURCE_DIM_TEX_2D; Width := 256; Height := 256; ArraySize := 1;
     Format := 28; MipLevels := 3; Usage := USAGE_IMMUTABLE;
     BindFlags := BIND_SHADER_RESOURCE |}.

Definition loader (tex : Z) : @ITextureLoader (Z * Z) :=
  {| GetTextureDesc := desc; GetSubresourceData := fun mip _ => (tex, mip) |}.

Definition files (name : string) : option (@ITextureLoader (Z * Z)) :=
  if decide (name = "DGLogo0.png"%string) then Some (loader 0)
  else if decide (name = "DGLogo1.png"%string) then Some (loader 1)
  else if decide (name = "DGLogo2.png"%string) then Some (loader 2)
  else if decide (name = "DGLogo3.png"%string) then Some (loader 3)
  else None.
End Demo.

(** ** The pipeline state and the instance buffer:
    [CreatePipelineState] (lines 58-114), [CreateInstanceBuffer]
    (lines 116-127) *)

Inductive INPUT_ELEMENT_FREQUENCY :=
  INPUT_ELEMENT_FREQUENCY_PER_VERTEX | INPUT_ELEMENT_FREQUENCY_PER_INSTANCE.

(** The component type of a vertex attribute; the layout of the source
    uses [VT_FLOAT32] only. *)
Inductive COMPONENT_TYPE := VT_FLOAT32.

Record LayoutElement := {
  InputIndex : Z;
  BufferSlot : Z;
  NumComponents : Z;
  ValueType : COMPONENT_TYPE;
  IsNormalized : bool;
  Frequency : INPUT_ELEMENT_FREQUENCY }.

(** Lines 63-83.  The two per-vertex elements leave the frequency to its
    default, which the comments of the source name: per vertex. *)
Definition LayoutElems : list LayoutElement :=
  [ Build_LayoutElement 0 0 3 VT_FLOAT32 false INPUT_ELEMENT_FREQUENCY_PER_VERTEX;
    Build_LayoutElement 1 0 2 VT_FLOAT32 false INPUT_ELEMENT_FREQUENCY_PER_VERTEX;
    Build_LayoutElement 2 1 4 VT_FLOAT32 false INPUT_ELEMENT_FREQUENCY_PER_INSTANCE;
    Build_LayoutElement 3 1 4 VT_FLOAT32 false INPUT_ELEMENT_FREQUENCY_PER_INSTANCE;
    Build_LayoutElement 4 1 4 VT_FLOAT32 false INPUT_ELEMENT_FREQUENCY_PER_INSTANCE;
    Build_LayoutElement 5 1 4 VT_FLOAT32 false INPUT_ELEMENT_FREQUENCY_PER_INSTANCE;
    Build_LayoutElement 6 1 1 VT_FLOAT32 false INPUT_ELEMENT_FREQUENCY_PER_INSTANCE ].

Definition sizeof_component (t : COMPONENT_TYPE) : Z :=
  match t with VT_FLOAT32 => sizeof_float end.

Definition sizeof_element (e : LayoutElement) : Z :=
  NumComponents e * sizeof_component (ValueType e).

(** The bytes one buffer slot contributes to a vertex or an instance:
    its elements, tightly packed. *)
Definition slot_stride (slot : Z) (layout : list LayoutElement) : Z :=
  foldr (fun e acc => if decide (BufferSlot e = slot) then sizeof_element e + acc else acc)
        0 layout.

Inductive BUFFER_BIND_FLAGS := BIND_VERTEX_BUFFER | BIND_UNIFORM_BUFFER.

Record BufferDesc := {
  BufferName : string;
  BufferUsage : USAGE;
  BufferBindFlags : BUFFER_BIND_FLAGS;
  BufferSize : Z }.

(** Calls on the render device and on the pipeline objects at start-up. *)
Inductive DeviceCall :=
| CreatePipelineStateCall (VSFilePath PSFilePath : string)
    (ExtraLayoutElements : list LayoutElement) (NumExtraLayoutElements : Z)
    (ConvertPSOutputToGamma : bool)
| CreateUniformBuffer (Size : Z) (Name : string)
| SetStaticVariable (Name : string) (buf : BufferId)
| CreateShaderResourceBinding
| CreateBuffer (desc : BufferDesc) (buf : BufferId)
| CreateCubeVertexBuffer
| CreateCubeIndexBuffer.

Definition CreatePipelineState (st : AppState) : list DeviceCall :=
  [ CreatePipelineStateCall "cube_inst.vsh" "cube_inst.psh" LayoutElems
      (Z.of_nat (length LayoutElems)) (m_ConvertPSOutputToGamma st);
    CreateUniformBuffer (sizeof_float4x4 * 2) "VS constants CB";
    SetStaticVariable "Constants" VSConstants;
    CreateShaderResourceBinding ].

(** [MaxInstances] is a constant of the header. *)
Definition CreateInstanceBuffer (E : Engine) (MaxInstances : Z) (st : AppState)
    : AppState * list DeviceCall * list Command :=
  let InstBuffDesc :=
    {| BufferName := "Instance data buffer";
       BufferUsage := USAGE_DEFAULT;
       BufferBindFlags := BIND_VERTEX_BUFFER;
       BufferSize := sizeof_InstanceData * MaxInstances |} in
  let '(st, cmds) := PopulateInstanceBuffer E st in
  (st, [CreateBuffer InstBuffDesc InstanceBuffer], cmds).

#[global] Instance BufferId_eq_dec : EqDecision BufferId.
Proof. solve_decision. Defined.

(** The capacity in bytes of the buffers created at start-up. *)
Definition capacity (buf : BufferId) (calls : list DeviceCall) : option Z :=
  head (omap (fun c => match c with
                       | CreateBuffer desc b =>
                           if decide (b = buf) then Some (BufferSize desc) else None
                       | CreateUniformBuffer size _ =>
                           if decide (buf = VSConstants) then Some size else None
                       | _ => None
                       end) calls).

(** An update of a buffer stays within [cap] bytes. *)
Definition upload_fits (cap : Z) (c : Command) : Prop :=
  match c with
  | UpdateBuffer _ Offset Size _ => 0 <= Offset /\ Offset + Size <= cap
  | _ => True
  end.

(** [Initialize] (lines 187-199), from the state the base class leaves:
    the pipeline state, the cube buffers, the instance buffer with its
    first upload, and the textures.  The result is [None] when an
    assertion of [LoadTextures] fails. *)
Definition Initialize {TextureSubResData : Type} `{Inhabited TextureSubResData}
    (E : Engine) (MaxInstances NumTextures : Z)
    (CreateTextureLoaderFromFile : string -> option (@ITextureLoader TextureSubResData))
    (st : AppState)
    : option (AppState * list DeviceCall * list Command * (TextureDesc * TextureData)) :=
  let pipeline := CreatePipelineState st in
  let cube := [CreateCubeVertexBuffer; CreateCubeIndexBuffer] in
  let '(st, instances, cmds) := CreateInstanceBuffer E MaxInstances st in
  texture ← LoadTextures CreateTextureLoaderFromFile NumTextures;
  Some (st, pipeline ++ cube ++ instances, cmds, texture).

(** ** More vocabulary: view buttons and events *)

(** The yaw and the pitch each view button assigns (lines 419-497). *)
Definition preset_of (b : ViewButton) : float * float :=
  match b with
  | FrontRight => (PI_F / (4#1), PI_F / (4#1))
  | TopRight => (0#1, PI_F / (4#1))
  | FrontLeft => (- PI_F / (4#1), PI_F / (4#1))
  | Right => (PI_F / (2#1), 0#1)
  | Up => (0#1, PI_F / (2#1))
  | Front => (0#1, 0#1)
  | Left => (- PI_F / (2#1), 0#1)
  | Down => (0#1, - PI_F / (2#1))
  | Back => (PI_F, 0#1)
  | RightBottom => (PI_F / (4#1), - PI_F / (4#1))
  | DownLeft => (0#1, - PI_F / (4#1))
  | LeftBottom => (- PI_F / (4#1), - PI_F / (4#1))
  end%f32.

(** The position of a button in the source. *)
Definition button_rank (b : ViewButton) : nat :=
  match b with
  | FrontRight => 0 | TopRight => 1 | FrontLeft => 2
  | Right => 3 | Up => 4 | Front => 5 | Left => 6 | Down => 7 | Back => 8
  | RightBottom => 9 | DownLeft => 10 | LeftBottom => 11
  end.

(** Nothing is dragged, scrolled, held or pressed. *)
Definition no_input (inp : FrameInput) : Prop :=
  IsMouseDragging inp = false /\ only_pointer inp.

(** The inputs that reach the yaw, the pitch and the distance. *)
Definition same_pointer_input (inp inp' : FrameInput) : Prop :=
  IsMouseDragging inp = IsMouseDragging inp' /\
  dragDelta_x inp = dragDelta_x inp' /\
  MouseWheel inp = MouseWheel inp' /\
  forall b, Button inp b = Button inp' b.

Definition angles (c : CameraState) : float * float * float :=
  (yaw c, pitch c, distance c).

(** Events that call [PopulateInstanceBuffer]: a render, or a change of
    the slider. *)
Definition populates (ev : Event) : bool :=
  match ev with
  | EvRender | EvUpdateUI (Some _) => true
  | _ => false
  end.

Definition is_update (ev : Event) : bool :=
  match ev with EvUpdate _ => true | _ => false end.

(** The grid size after a sequence of events: the last value the slider
    stored, if any. *)
Definition last_slider (g : Z) (evs : list Event) : Z :=
  foldl (fun g ev => match ev with EvUpdateUI (Some g') => g' | _ => g end) g evs.

(** Inputs and files for running the further properties. *)
Module Inputs.
#[global] Instance ViewButton_eq_dec : EqDecision ViewButton.
Proof. solve_decision. Defined.

(** The buttons of [bs] are pressed, no other. *)
Definition pressing (bs : list ViewButton) (inp : FrameInput) : FrameInput :=
  Reference.with_button (fun b => bool_decide (b ∈ bs)) inp.

(** All four arrow keys are held during [dt] seconds. *)
Definition with_keys (dt : spec_float) (inp : FrameInput) : FrameInput :=
  {| IsMouseDragging := IsMouseDragging inp;
     dragDelta_x := dragDelta_x inp;
     dragDelta_y := dragDelta_y inp;
     MouseWheel := MouseWheel inp;
     KeyUpArrow := true;
     KeyDownArrow := true;
     KeyRightArrow := true;
     KeyLeftArrow := true;
     Button := Button inp;
     ElapsedTime := dt;
     GetSurfacePretransformMatrix := GetSurfacePretransformMatrix inp;
     GetAdjustedProjectionMatrix := GetAdjustedProjectionMatrix inp |}.

(** An engine that answers NaN and empty matrices. *)
Definition blind : Engine :=
  Build_Engine (fun _ => S754_nan) (fun _ => S754_nan)
               (fun _ _ _ => float4x4_default) (fun _ _ _ => float4x4_default)
               (fun _ => float4x4_default) (fun _ _ => float4x4_default)
               (fun v => v) (fun v _ => v) (fun _ _ => S754_nan) (fun c => c).

Definition rest : FrameInput := Reference.idle (F64.of_Z 0) Identity.



End Inputs.

(** * Verification *)

(** ** Facts on the floating-point specification *)

Section FloatFacts.
Variables prec emax : Z.

Lemma SFcompare_antisym (a b : spec_float) :
  SFcompare a b = option_map CompOpp (SFcompare b a).
Proof.
  destruct a as [sa|sa| |sa ma ea], b as [sb|sb| |sb mb eb];
    try destruct sa; try destruct sb; try reflexivity; cbn.
  all: rewrite (Z.compare_antisym ea eb).
  all: destruct (ea ?= eb)%Z; cbn; try reflexivity.
  all: rewrite ?Pos.compare_cont_antisym; reflexivity.
Qed.

Lemma SFcompare_None (a b : spec_float) :
  SFcompare a b = None -> a = S754_nan \/ b = S754_nan.
Proof.
  destruct a as [sa|sa| |sa ma ea], b as [sb|sb| |sb mb eb];
    try destruct sa; try destruct sb; cbn; intros; try discriminate; auto.
Qed.

Lemma SFleb_not_ltb (a b : spec_float) : SFleb a b = true -> SFltb b a = false.
Proof.
  unfold SFleb, SFltb. rewrite (SFcompare_antisym b a).
  destruct (SFcompare a b) as [[]|]; cbn; congruence.
Qed.

Lemma SFltb_false_leb (a b : spec_float) :
  a <> S754_nan -> b <> S754_nan -> SFltb a b = false -> SFleb b a = true.
Proof.
  intros Ha Hb. unfold SFleb, SFltb. rewrite (SFcompare_antisym b a).
  destruct (SFcompare a b) as [[]|] eqn:Hc; cbn; try congruence.
  destruct (SFcompare_None _ _ Hc); contradiction.
Qed.

Lemma SFleb_not_nan_r (a b : spec_float) : SFleb a b = true -> b <> S754_nan.
Proof. intros H ->. unfold SFleb in H. now destruct a. Qed.

Lemma SFleb_not_nan_l (a b : spec_float) : SFleb a b = true -> a <> S754_nan.
Proof. intros H ->. discriminate. Qed.

(** Rounding a mantissa that is not negative never yields NaN. *)
Lemma shr_1_nonneg (mrs : shr_record) : 0 <= shr_m mrs -> 0 <= shr_m (shr_1 mrs).
Proof.
  destruct mrs as [m r s]. cbn.
  destruct m as [|p|p]; [cbn; lia| |lia]. intros _.
  destruct p; cbn; lia.
Qed.

Lemma iter_shr_1_nonneg (p : positive) (mrs : shr_record) :
  0 <= shr_m mrs -> 0 <= shr_m (SpecFloat.iter_pos shr_1 p mrs).
Proof.
  revert mrs. induction p as [p IH|p IH|]; intros mrs H; cbn.
  - apply IH, IH, shr_1_nonneg, H.
  - apply IH, IH, H.
  - apply shr_1_nonneg, H.
Qed.

Lemma shr_fexp_nonneg (m e : Z) (l : location) :
  0 <= m -> 0 <= shr_m (shr_fexp prec emax m e l).1.
Proof.
  intros Hm. unfold shr_fexp, shr.
  assert (H0 : 0 <= shr_m (shr_record_of_loc m l)).
  { destruct l as [|[]]; exact Hm. }
  destruct (_ - e)%Z; cbn; try exact H0.
  now apply iter_shr_1_nonneg.
Qed.

Lemma round_nearest_even_nonneg (m : Z) (l : location) :
  0 <= m -> 0 <= round_nearest_even m l.
Proof.
  intros Hm. destruct l as [|[]]; cbn; try lia.
  destruct (Z.even m); lia.
Qed.

Lemma binary_round_aux_not_nan (s : bool) (m e : Z) (l : location) :
  0 <= m -> binary_round_aux prec emax s m e l <> S754_nan.
Proof.
  intros Hm. unfold binary_round_aux.
  pose proof (shr_fexp_nonneg m e l Hm) as H1.
  destruct (shr_fexp prec emax m e l) as [mrs' e'].
  cbn [fst] in H1.
  pose proof (shr_fexp_nonneg _ e' loc_Exact
                (round_nearest_even_nonneg _ (loc_of_shr_record mrs') H1)) as H2.
  destruct (shr_fexp prec emax (round_nearest_even _ _) e' loc_Exact) as [mrs'' e''].
  cbn [fst] in H2.
  destruct (shr_m mrs'') as [|p|p]; try discriminate; [|lia].
  destruct (e'' <=? emax - prec)%Z; discriminate.
Qed.

Lemma binary_round_not_nan (s : bool) (m : positive) (e : Z) :
  binary_round prec emax s m e <> S754_nan.
Proof.
  unfold binary_round. destruct (shl_align _ _ _) as [mz ez].
  apply binary_round_aux_not_nan. lia.
Qed.

Lemma binary_normalize_not_nan (m e : Z) (sz : bool) :
  binary_normalize prec emax m e sz <> S754_nan.
Proof.
  destruct m; cbn; try discriminate; apply binary_round_not_nan.
Qed.

Lemma SFmul_not_nan (a b : spec_float) :
  a <> S754_nan -> is_finite b = true -> b <> S754_zero false ->
  b <> S754_zero true -> SFmul prec emax a b <> S754_nan.
Proof.
  intros Ha Hb Hz Hz'.
  destruct a as [sa|sa| |sa ma ea], b as [[]|sb| |sb mb eb];
    try discriminate; try contradiction; cbn [SFmul].
  apply binary_round_aux_not_nan. lia.
Qed.

Lemma SFsub_not_nan (a b : spec_float) :
  is_finite a = true -> b <> S754_nan -> SFsub prec emax a b <> S754_nan.
Proof.
  intros Ha Hb.
  destruct a as [sa|sa| |sa ma ea], b as [sb|sb| |sb mb eb];
    try discriminate; try contradiction; cbn [SFsub].
  - destruct sa, sb; discriminate.
  - apply binary_normalize_not_nan.
Qed.
End FloatFacts.

(** ** The instance layout generator *)

Section InstanceLayout.
Context (E : Engine).

(** What one call of [PopulateInstanceBuffer] does, in closed form. *)
Lemma PopulateInstanceBuffer_eq (st : AppState) :
  PopulateInstanceBuffer E st =
  (set_angle (advance (angle st)) st,
   [UpdateBuffer InstanceBuffer 0 1496
      (map (instance_of E (advance (angle st))) scene)]).
Proof.
  unfold PopulateInstanceBuffer, advance.
  generalize (angle st + (3#1000))%f32; intros a.
  vm_compute. reflexivity.
Qed.

Lemma scene_length : length scene = 22%nat.
Proof. reflexivity. Qed.

Lemma scene_layers : map part_layer scene =
  [3; 3; 3; 3; 3; 3; 3; 0; 2; 1; 0; 3; 3; 3; 3; 3; 3; 3; 1; 0; 2; 1].
Proof. reflexivity. Qed.

Lemma populate_times_angle (k : nat) (st : AppState) :
  angle (populate_times E k st).1 = Nat.iter k advance (angle st).
Proof.
  induction k as [|k IH]; simpl; [reflexivity|].
  destruct (populate_times E k st) as [st' cmds] eqn:Hk.
  rewrite PopulateInstanceBuffer_eq. simpl in *. now rewrite IH.
Qed.

(** The constant standing for [PI_F] is a well-formed binary32 number. *)
Lemma PI_F_valid : F32.valid PI_F = true.
Proof. reflexivity. Qed.

(** The first advance from the initial angle, and the angle from which
    the rounded sum no longer moves: at 65536 half a unit in the last
    place, [2^-8], exceeds the increment. *)
Lemma advance_from_start :
  advance angle_init = S754_finite false 13189378 (-22).
Proof. vm_compute. reflexivity. Qed.

Lemma advance_absorbed : advance (F32.of_Z 65536) = F32.of_Z 65536.
Proof. vm_compute. reflexivity. Qed.
End InstanceLayout.

Section FrameRenderer.
Context (E : Engine).

(** The increment [0.003f] is the single-precision number nearest to
    0.003: it is within half a unit in the last place, [2^-33]. *)
Lemma increment_real : (Rabs (SF2R (3#1000)%f32 - 3 / 1000) < / 2 ^ 33)%R.
Proof.
  replace (3#1000)%f32 with (S754_finite false 12884902 (-32))
    by (vm_compute; reflexivity).
  cbv [SF2R cond_Zopp powerRZ].
  apply Rabs_def1; simpl; lra.
Qed.

(** C4: each call of [PopulateInstanceBuffer] replaces the shared angle
    by its single-precision sum with [0.003f] (a constant within [2^-33]
    of 0.003) and touches nothing else of the state; [k+1] calls apply
    that sum [k+1] times.  The records uploaded by any call are those of
    the fixed scene table at the new angle,
    [Scale * Translation * RotationY(angle)] with the scale and the
    translation of the part, so the texture layers are the same 22
    numbers after every call. *)
Theorem populate_advances_angle_only (k : nat) (st : AppState) :
  let st1 := (PopulateInstanceBuffer E st).1 in
  let stk := (populate_times E (S k) st).1 in
  angle st1 = (angle st + (3#1000))%f32 /\
  (Rabs (SF2R (3#1000)%f32 - 3 / 1000) < / 2 ^ 33)%R /\
  st1 = set_angle (angle st1) st /\
  uploaded (PopulateInstanceBuffer E st).2 = map (instance_of E (angle st1)) scene /\
  angle stk = Nat.iter (S k) (fun a => a + (3#1000))%f32 (angle st) /\
  uploaded (populate_times E (S k) st).2 = map (instance_of E (angle stk)) scene /\
  map TextureInd (uploaded (populate_times E (S k) st).2) =
    map TextureInd (uploaded (PopulateInstanceBuffer E st).2) /\
  map TextureInd (uploaded (PopulateInstanceBuffer E st).2) =
    map F32.of_Z [3; 3; 3; 3; 3; 3; 3; 0; 2; 1; 0; 3; 3; 3; 3; 3; 3; 3; 1; 0; 2; 1].
Proof.
  pose proof (populate_times_angle E (S k) st) as Hk.
  cbn zeta. cbn [populate_times] in *.
  destruct (populate_times E k st) as [st' cmds'].
  rewrite !PopulateInstanceBuffer_eq in *.
  cbn [fst snd uploaded flat_map app set_angle angle] in Hk |- *.
  rewrite !app_nil_r, !map_map.
  split; [reflexivity|].
  split; [exact increment_real|].
  split; [reflexivity|].
  split; [reflexivity|].
  split; [exact Hk|].
  split; [reflexivity|].
  split; reflexivity.
Qed.

Lemma grid_cube (g : Z) :
  1 <= g <= 32 -> to_Uint32 (int_mul (int_mul g g) g) = g ^ 3.
Proof.
  intros Hg. unfold to_Uint32, int_mul, to_int, Uint32_modulus.
  assert (H2 : 1 <= g * g <= 1024) by nia.
  rewrite (Z.mod_small (g * g + 2 ^ 31)) by lia.
  replace (g * g + 2 ^ 31 - 2 ^ 31) with (g * g) by lia.
  assert (H3 : 1 <= g * g * g <= 32768) by nia.
  rewrite (Z.mod_small (g * g * g + 2 ^ 31)) by lia.
  rewrite Z.mod_small by lia.
  replace (g ^ 3) with (g * g * g) by (change 3 with (Z.succ (Z.succ 1)); rewrite !Z.pow_succ_r, Z.pow_1_r by lia; ring).
  lia.
Qed.

(** C8: whatever the grid size, [PopulateInstanceBuffer] issues one
    update of the instance buffer, at offset 0, of [22 * 68 = 1496]
    bytes, carrying 22 records whose texture layers are all among 0, 1,
    2 and 3; a record is 16 floats and one float, 68 bytes; and every
    rendered frame contains exactly this one upload. *)
Theorem populate_uploads_22_records (st : AppState) :
  exists data : list InstanceData,
    (PopulateInstanceBuffer E st).2 =
      [UpdateBuffer InstanceBuffer 0 (22 * sizeof_InstanceData) data] /\
    length data = 22%nat /\
    sizeof_InstanceData = 68 /\
    Forall (fun d => In (TextureInd d) (map F32.of_Z [0; 1; 2; 3])) data /\
    List.filter is_upload (Render E st).2 =
      [UpdateBuffer InstanceBuffer 0 (22 * sizeof_InstanceData) data].
Proof.
  exists (map (instance_of E (advance (angle st))) scene).
  unfold Render. rewrite PopulateInstanceBuffer_eq.
  split; [reflexivity|].
  split; [now rewrite length_map|].
  split; [reflexivity|].
  split; [|reflexivity].
  rewrite Forall_map. unfold scene.
  repeat (apply Forall_cons; split; [vm_compute; tauto|]).
  apply Forall_nil_2.
Qed.

(** C1: for a grid size between 1 and 32, the commands of a rendered
    frame contain exactly one draw call; it is an indexed draw of 36
    indices and [gridSize^3] instances. *)
Theorem render_one_indexed_draw (st : AppState) :
  1 <= m_GridSize st <= 32 ->
  List.filter is_draw (Render E st).2 =
    [DrawIndexed {| IndexType := VT_UINT32;
                    NumIndices := 36;
                    NumInstances := m_GridSize st ^ 3;
                    Flags := DRAW_FLAG_VERIFY_ALL |}].
Proof.
  intros Hg. unfold Render. rewrite PopulateInstanceBuffer_eq.
  cbn [snd app List.filter is_draw set_angle m_GridSize].
  now rewrite grid_cube.
Qed.
End FrameRenderer.

Lemma render_one_indexed_draw_witness :
  1 <= 4 <= 32 /\
  List.filter is_draw (Render Reference.engine (Reference.start 4)).2 =
    [DrawIndexed {| IndexType := VT_UINT32;
                    NumIndices := 36;
                    NumInstances := 64;
                    Flags := DRAW_FLAG_VERIFY_ALL |}].
Proof.
  split; [lia|].
  apply (render_one_indexed_draw Reference.engine (Reference.start 4)).
  simpl. lia.
Defined.

(** ** The orbit camera *)

Section OrbitCamera.
Context (E : Engine).

Lemma Update_camera (inp : FrameInput) (st : AppState) :
  camera (Update E inp st) =
  let c := view_camera inp (camera st) in
  preset_block inp (pan_block inp (orbit_basis E c) c).
Proof. reflexivity. Qed.

Lemma on_button_distance inp b y p c :
  distance (on_button inp b y p c) = distance c.
Proof. unfold on_button. now destruct (Button inp b). Qed.

Lemma on_button_target inp b y p c :
  target (on_button inp b y p c) = target c.
Proof. unfold on_button. now destruct (Button inp b). Qed.

Lemma preset_block_distance inp c :
  distance (preset_block inp c) = distance c.
Proof. unfold preset_block. now rewrite !on_button_distance. Qed.

Lemma preset_block_target inp c :
  target (preset_block inp c) = target c.
Proof. unfold preset_block. now rewrite !on_button_target. Qed.

Lemma preset_block_idle inp c :
  (forall b, Button inp b = false) -> preset_block inp c = c.
Proof. intros Hb. unfold preset_block, on_button. now rewrite !Hb. Qed.

Lemma pan_block_angles inp b c :
  yaw (pan_block inp b c) = yaw c /\
  pitch (pan_block inp b c) = pitch c /\
  distance (pan_block inp b c) = distance c.
Proof.
  unfold pan_block.
  destruct (KeyUpArrow inp), (KeyDownArrow inp), (KeyRightArrow inp),
    (KeyLeftArrow inp); repeat split.
Qed.

Lemma pan_block_idle inp b c : no_key inp -> pan_block inp b c = c.
Proof.
  intros (Hu & Hd & Hr & Hl). unfold pan_block. now rewrite Hu, Hd, Hr, Hl.
Qed.

Lemma wheel_block_angles inp c :
  yaw (wheel_block inp c) = yaw c /\
  pitch (wheel_block inp c) = pitch c /\
  target (wheel_block inp c) = target c.
Proof.
  unfold wheel_block.
  destruct (F32.ltb _ (F32.abs _)); [|repeat split].
  cbn [distance set_distance].
  destruct (F32.ltb (F32.sub _ _) _); cbn [distance set_distance];
    destruct (F32.ltb (100#1)%f32 _); repeat split.
Qed.

Lemma wheel_block_distance_cases inp c :
  distance (wheel_block inp c) =
  if ((0#1) <? F32.abs (MouseWheel inp))%f32
  then clamp (1#1)%f32 (100#1)%f32 (distance c - MouseWheel inp * (2#1))%f32
  else distance c.
Proof.
  unfold wheel_block, clamp.
  destruct (F32.ltb _ (F32.abs _)); [|reflexivity].
  cbn [distance set_distance].
  destruct (F32.ltb (F32.sub _ _) _); cbn [distance set_distance];
    destruct (F32.ltb (100#1)%f32 _); reflexivity.
Qed.

Lemma wheel_block_distance inp c :
  ((0#1) <? F32.abs (MouseWheel inp))%f32 = true ->
  distance (wheel_block inp c) =
  clamp (1#1)%f32 (100#1)%f32 (distance c - MouseWheel inp * (2#1))%f32.
Proof. intros Hw. now rewrite wheel_block_distance_cases, Hw. Qed.

Lemma wheel_block_idle inp c :
  ((0#1) <? F32.abs (MouseWheel inp))%f32 = false -> wheel_block inp c = c.
Proof. intros Hw. unfold wheel_block. now rewrite Hw. Qed.

Lemma clamp_pitch_block_others c :
  yaw (clamp_pitch_block c) = yaw c /\
  distance (clamp_pitch_block c) = distance c /\
  target (clamp_pitch_block c) = target c.
Proof.
  unfold clamp_pitch_block.
  destruct (F32.ltb pitchLimit (pitch c)); cbn [pitch set_pitch];
    destruct (F32.ltb _ (F32.opp pitchLimit)); repeat split.
Qed.

Lemma clamp_pitch_block_pitch c :
  pitch (clamp_pitch_block c) =
  (let p := if pitchLimit <? pitch c then pitchLimit else pitch c in
   if p <? - pitchLimit then - pitchLimit else p)%f32.
Proof.
  unfold clamp_pitch_block.
  destruct (F32.ltb pitchLimit (pitch c)); cbn [pitch set_pitch];
    destruct (F32.ltb _ (F32.opp pitchLimit)); reflexivity.
Qed.

Lemma drag_block_others inp c :
  pitch (drag_block inp c) = pitch c /\
  distance (drag_block inp c) = distance c /\
  target (drag_block inp c) = target c.
Proof. unfold drag_block. destruct (IsMouseDragging inp); repeat split. Qed.

Lemma view_camera_distance inp c :
  distance (view_camera inp c) = distance (wheel_block inp c).
Proof.
  unfold view_camera. rewrite !wheel_block_distance_cases.
  destruct (clamp_pitch_block_others (drag_block inp c)) as (_ & -> & _).
  destruct (drag_block_others inp c) as (_ & -> & _).
  reflexivity.
Qed.

Lemma Update_distance inp st :
  distance (camera (Update E inp st)) = distance (wheel_block inp (camera st)).
Proof.
  rewrite Update_camera. cbn zeta. rewrite preset_block_distance.
  destruct (pan_block_angles inp (orbit_basis E (view_camera inp (camera st)))
              (view_camera inp (camera st))) as (_ & _ & ->).
  apply view_camera_distance.
Qed.
End OrbitCamera.

Section DistanceRange.
Lemma in_range_finite (lo hi v : float) :
  is_finite lo = true -> is_finite hi = true ->
  in_range lo hi v = true -> is_finite v = true.
Proof.
  unfold in_range, F32.leb, SFleb. intros Hlo Hhi [H1 H2]%andb_prop.
  destruct v as [s|[]| |s m e]; try reflexivity.
  - destruct lo as [?|[]| |[] ? ?]; cbn in *; congruence.
  - destruct hi as [?|[]| |[] ? ?]; cbn in *; congruence.
  - destruct lo; cbn in *; congruence.
Qed.

Lemma wheel_active_not_nan (w : float) :
  ((0#1) <? F32.abs w)%f32 = true -> w <> S754_nan.
Proof. intros H ->. discriminate. Qed.

Lemma clamp_in_range (v : float) :
  v <> S754_nan -> in_range (1#1)%f32 (100#1)%f32 (clamp (1#1)%f32 (100#1)%f32 v) = true.
Proof.
  intros Hv. unfold clamp.
  destruct (v <? 1#1)%f32 eqn:H1; [reflexivity|].
  destruct ((100#1) <? v)%f32 eqn:H2; [reflexivity|].
  unfold in_range, F32.leb, F32.ltb in *.
  apply andb_true_intro; split.
  - apply SFltb_false_leb; [exact Hv|discriminate|exact H1].
  - apply SFltb_false_leb; [discriminate|exact Hv|exact H2].
Qed.

Lemma wheel_block_in_range (inp : FrameInput) (c : CameraState) :
  in_range (1#1)%f32 (100#1)%f32 (distance c) = true ->
  in_range (1#1)%f32 (100#1)%f32 (distance (wheel_block inp c)) = true.
Proof.
  intros Hd. rewrite wheel_block_distance_cases.
  destruct ((0#1) <? F32.abs (MouseWheel inp))%f32 eqn:Hw; [|exact Hd].
  apply clamp_in_range, SFsub_not_nan.
  - revert Hd. now apply in_range_finite.
  - apply SFmul_not_nan; try discriminate; try reflexivity.
    now apply wheel_active_not_nan.
Qed.
End DistanceRange.

Section CameraClaims.
Context (E : Engine).

(** C6: when the wheel delta [w] is not zero, [Update] replaces the
    distance by [distance - w * 2.0f] clamped to [1, 100]; this keeps a
    distance of [1, 100] inside [1, 100]; and a delta of 5 at distance 20
    gives exactly 10. *)
Theorem scroll_updates_distance (inp : FrameInput) (st : AppState) :
  ((0#1) <? F32.abs (MouseWheel inp))%f32 = true ->
  distance (camera (Update E inp st)) =
    clamp (1#1)%f32 (100#1)%f32
          (distance (camera st) - MouseWheel inp * (2#1))%f32 /\
  (in_range (1#1)%f32 (100#1)%f32 (distance (camera st)) = true ->
   in_range (1#1)%f32 (100#1)%f32 (distance (camera (Update E inp st))) = true) /\
  (MouseWheel inp = (5#1)%f32 -> distance (camera st) = (20#1)%f32 ->
   distance (camera (Update E inp st)) = (10#1)%f32).
Proof.
  intros Hw. rewrite Update_distance.
  split; [now apply wheel_block_distance|].
  split; [apply wheel_block_in_range|].
  rewrite wheel_block_distance by exact Hw.
  intros -> ->. vm_compute. reflexivity.
Qed.

(** C7: a drag with delta [(dx, dy)] adds [dx * 0.005f] to the yaw and
    changes no other field of the camera, whatever [dy] is; in a call of
    [Update] with no other input the yaw is advanced this way, the
    distance and the target are kept, and the pitch is only passed
    through the clamp, so a pitch within the limit is kept too. *)
Theorem drag_updates_yaw_only (inp : FrameInput) (st : AppState) :
  IsMouseDragging inp = true ->
  let c := camera st in
  let c' := camera (Update E inp st) in
  drag_block inp c =
    {| yaw := (yaw c + dragDelta_x inp * (5#1000))%f32;
       pitch := pitch c; distance := distance c; target := target c |} /\
  (only_pointer inp ->
   yaw c' = (yaw c + dragDelta_x inp * (5#1000))%f32 /\
   distance c' = distance c /\
   target c' = target c /\
   pitch c' = pitch (clamp_pitch_block c) /\
   (in_range (- pitchLimit)%f32 pitchLimit (pitch c) = true -> pitch c' = pitch c)).
Proof.
  intros Hdrag c c'.
  assert (Hd : drag_block inp c = set_yaw (yaw c + dragDelta_x inp * (5#1000))%f32 c).
  { unfold drag_block. now rewrite Hdrag. }
  split; [exact Hd|].
  intros (Hw & Hu & Hdn & Hr & Hl & Hb).
  assert (Hc' : c' = clamp_pitch_block (drag_block inp c)).
  { subst c'. rewrite Update_camera. cbn zeta.
    rewrite preset_block_idle by exact Hb.
    rewrite pan_block_idle by (repeat split; assumption).
    unfold view_camera. now rewrite wheel_block_idle. }
  destruct (clamp_pitch_block_others (drag_block inp c)) as (Hy & Hdist & Ht).
  rewrite Hc', Hy, Hdist, Ht, !clamp_pitch_block_pitch, Hd.
  cbn [yaw pitch distance target set_yaw].
  repeat split.
  unfold in_range. intros [H1 H2]%andb_prop.
  unfold F32.ltb, F32.leb in *.
  now rewrite (SFleb_not_ltb _ _ H2), (SFleb_not_ltb _ _ H1).
Qed.
End CameraClaims.

Lemma scroll_updates_distance_witness :
  let inp := Reference.with_wheel (5#1)%f32 (Reference.idle (F64.of_Z 0) Identity) in
  let st := Reference.start 1 in
  distance (camera (Update Reference.engine inp st)) =
    clamp (1#1)%f32 (100#1)%f32 (distance (camera st) - MouseWheel inp * (2#1))%f32 /\
  in_range (1#1)%f32 (100#1)%f32 (distance (camera (Update Reference.engine inp st))) = true /\
  distance (camera (Update Reference.engine inp st)) = (10#1)%f32.
Proof.
  intros inp st.
  destruct (scroll_updates_distance Reference.engine inp st) as (H1 & H2 & H3).
  - reflexivity.
  - split; [exact H1|]. split.
    + apply H2. reflexivity.
    + apply H3; reflexivity.
Defined.

Lemma drag_updates_yaw_only_witness :
  let inp := Reference.with_drag (40#1)%f32 (7#1)%f32 (Reference.idle (F64.of_Z 0) Identity) in
  let c := camera (Reference.start 1) in
  let c' := camera (Update Reference.engine inp (Reference.start 1)) in
  yaw c' = (yaw c + (40#1) * (5#1000))%f32 /\
  distance c' = distance c /\ target c' = target c /\ pitch c' = pitch c.
Proof.
  intros inp c c'.
  destruct (drag_updates_yaw_only Reference.engine inp (Reference.start 1))
    as (_ & H).
  - reflexivity.
  - assert (Hin : only_pointer inp) by (unfold only_pointer; repeat split; reflexivity).
    destruct (H Hin) as (Hy & Hd & Ht & _ & Hp).
    split; [exact Hy|]. split; [exact Hd|]. split; [exact Ht|].
    apply Hp. reflexivity.
Defined.

Section CameraInvariant.
Context (E : Engine).
Local Open Scope R_scope.

Lemma PI_bounds : 314159265 / 100000000 < PI < 314159266 / 100000000.
Proof.
  pose proof (PI_2_3_7_ineq 5) as H.
  unfold PI_2_3_7_tg, tg_alt, Ratan_seq in H.
  cbn [sum_f_R0 Nat.mul Nat.add Rpow_def.pow] in H.
  rewrite !INR_IZR_INZ in H.
  cbv [Z.of_nat Pos.of_succ_nat Pos.succ] in H.
  lra.
Qed.

Lemma pitch_values_eq :
  pitch_values =
  [ S754_zero false;
    S754_finite false 13176795 (-24); S754_finite true 13176795 (-24);
    S754_finite false 13176795 (-23); S754_finite true 13176795 (-23);
    S754_finite false 13038414 (-23); S754_finite true 13038414 (-23) ].
Proof. vm_compute. reflexivity. Qed.

Lemma clamped_pitch_values_eq :
  clamped_pitch_values =
  [ S754_zero false;
    S754_finite false 13176795 (-24); S754_finite true 13176795 (-24);
    S754_finite false 13038414 (-23); S754_finite true 13038414 (-23) ].
Proof. vm_compute. reflexivity. Qed.

Lemma clamp_pitch_block_values (c : CameraState) :
  In (pitch c) pitch_values -> In (pitch (clamp_pitch_block c)) clamped_pitch_values.
Proof.
  rewrite clamp_pitch_block_pitch, pitch_values_eq, clamped_pitch_values_eq.
  intros H. repeat (destruct H as [<-|H]; [vm_compute; auto 10|]).
  all: destruct H.
Qed.

Lemma clamped_pitch_in_range (p : float) :
  In p clamped_pitch_values ->
  in_range (- pitchLimit)%f32 pitchLimit p = true /\ is_finite p = true /\
  - (99 / 100 * (PI / 2)) <= SF2R p <= 99 / 100 * (PI / 2).
Proof.
  rewrite clamped_pitch_values_eq. pose proof PI_bounds as HPI.
  intros H.
  repeat (destruct H as [<-|H];
          [split; [vm_compute; reflexivity|]; split; [reflexivity|];
           cbv [SF2R cond_Zopp powerRZ Z.opp]; simpl Rpow_def.pow; lra|]).
  all: destruct H.
Qed.
End CameraInvariant.

Section CameraBounds.
Context (E : Engine).

Lemma pitch_values_in_range (p : float) :
  In p pitch_values ->
  in_range (- (PI_F / (2#1)))%f32 (PI_F / (2#1))%f32 p = true.
Proof.
  rewrite pitch_values_eq. intros H.
  repeat (destruct H as [<-|H]; [vm_compute; reflexivity|]).
  all: destruct H.
Qed.

Lemma on_button_pitch_values inp b y p c :
  In p pitch_values -> In (pitch c) pitch_values ->
  In (pitch (on_button inp b y p c)) pitch_values.
Proof. intros Hp Hc. unfold on_button. now destruct (Button inp b). Qed.

Lemma preset_block_pitch_values inp c :
  In (pitch c) pitch_values -> In (pitch (preset_block inp c)) pitch_values.
Proof.
  intros Hc. unfold preset_block.
  repeat (apply on_button_pitch_values; [vm_compute; auto 10|]).
  exact Hc.
Qed.

Lemma clamped_is_pitch_value (p : float) :
  In p clamped_pitch_values -> In p pitch_values.
Proof.
  rewrite clamped_pitch_values_eq, pitch_values_eq. intros H.
  repeat (destruct H as [<-|H]; [cbn; auto 10|]).
  all: destruct H.
Qed.

Lemma view_camera_pitch inp c :
  pitch (view_camera inp c) = pitch (clamp_pitch_block c).
Proof.
  unfold view_camera.
  destruct (wheel_block_angles inp (clamp_pitch_block (drag_block inp c)))
    as (_ & -> & _).
  rewrite !clamp_pitch_block_pitch.
  now destruct (drag_block_others inp c) as (-> & _ & _).
Qed.

Lemma view_camera_ok inp c :
  camera_ok c ->
  In (pitch (view_camera inp c)) clamped_pitch_values /\
  in_range (1#1)%f32 (100#1)%f32 (distance (view_camera inp c)) = true.
Proof.
  intros [Hp Hd]. split.
  - rewrite view_camera_pitch. now apply clamp_pitch_block_values.
  - rewrite view_camera_distance. now apply wheel_block_in_range.
Qed.

Lemma camera_init_ok : camera_ok camera_init.
Proof. split; [vm_compute; auto|reflexivity]. Qed.

Lemma Update_ok inp st : camera_ok (camera st) -> camera_ok (camera (Update E inp st)).
Proof.
  intros Hc. destruct (view_camera_ok inp _ Hc) as [Hp Hd].
  split.
  - rewrite Update_camera. cbn zeta. apply preset_block_pitch_values.
    destruct (pan_block_angles inp (orbit_basis E (view_camera inp (camera st)))
                (view_camera inp (camera st))) as (_ & -> & _).
    now apply clamped_is_pitch_value.
  - rewrite Update_distance. apply wheel_block_in_range, Hc.
Qed.

Lemma step_camera ev st :
  match ev with
  | EvUpdate inp => camera (step E ev st).1 = camera (Update E inp st)
  | _ => camera (step E ev st).1 = camera st
  end.
Proof.
  destruct ev as [[g|]|inp|]; cbn [step UpdateUI Render]; try reflexivity.
  all: now rewrite PopulateInstanceBuffer_eq.
Qed.

Lemma step_ok ev st : camera_ok (camera st) -> camera_ok (camera (step E ev st).1).
Proof.
  intros Hc. pose proof (step_camera ev st) as H.
  destruct ev; rewrite H; [exact Hc|now apply Update_ok|exact Hc].
Qed.

Lemma run_ok evs st : camera_ok (camera st) -> camera_ok (camera (run E evs st).1).
Proof.
  revert st. induction evs as [|ev evs IH]; intros st Hc; [exact Hc|].
  cbn [run]. pose proof (step_ok ev st Hc) as Hs.
  destruct (step E ev st) as [st1 cmds1]. specialize (IH st1 Hs).
  now destruct (run E evs st1) as [st2 cmds2].
Qed.

(** C2, as the code has it: after any sequence of calls of the sample
    from process start, the distance lies in [1, 100]; the pitch stored at
    the end of a call lies in [-PI_F/2, PI_F/2]; and the pitch from which
    the next call of [Update] derives its view, the value after the clamp
    of that call, lies in [-1.57f*0.99f, 1.57f*0.99f], which is inside
    [-0.99*pi/2, 0.99*pi/2], with the distance again in [1, 100]. *)
Theorem camera_bounds (evs : list Event) (g : Z) (gamma : bool)
    (vp rot : float4x4) (inp : FrameInput) :
  let c := camera (run E evs (initial_state g gamma vp rot)).1 in
  let v := view_camera inp c in
  in_range (1#1)%f32 (100#1)%f32 (distance c) = true /\
  in_range (- (PI_F / (2#1)))%f32 (PI_F / (2#1))%f32 (pitch c) = true /\
  in_range (- pitchLimit)%f32 pitchLimit (pitch v) = true /\
  is_finite (pitch v) = true /\
  (- (99 / 100 * (PI / 2)) <= SF2R (pitch v) <= 99 / 100 * (PI / 2))%R /\
  in_range (1#1)%f32 (100#1)%f32 (distance v) = true.
Proof.
  intros c v.
  assert (Hc : camera_ok c) by (apply run_ok, camera_init_ok).
  destruct (view_camera_ok inp c Hc) as [Hp Hd].
  destruct (clamped_pitch_in_range _ Hp) as (H1 & H2 & H3).
  destruct Hc as [Hcp Hcd].
  repeat split; try assumption; try apply H3.
  now apply pitch_values_in_range.
Qed.

End CameraBounds.

(** C2, counterexample: at process start, a frame in which the button
    "Up" is pressed ends with the pitch [PI_F / 2], which is above
    [0.99 * pi / 2]. *)
Lemma pitch_after_Up_exceeds_limit :
  pitch (camera (Update Reference.engine press_Up (Reference.start 1)))
    = (PI_F / (2#1))%f32 /\
  ~ (- (99 / 100 * (PI / 2))
       <= SF2R (pitch (camera (Update Reference.engine press_Up (Reference.start 1))))
       <= 99 / 100 * (PI / 2))%R.
Proof.
  assert (H : pitch (camera (Update Reference.engine press_Up (Reference.start 1)))
              = S754_finite false 13176795 (-23)) by (vm_compute; reflexivity).
  rewrite H. split; [vm_compute; reflexivity|].
  pose proof PI_bounds as HPI.
  cbv [SF2R cond_Zopp powerRZ Z.opp]. simpl Rpow_def.pow. lra.
Qed.

(** ** The frame constants and the view matrix *)

Section FrameConstants.
Context (E : Engine).

Lemma step_rotation (ev : Event) (st : AppState) :
  m_RotationMatrix (step E ev st).1 =
  match ev with EvUpdate _ => Identity | _ => m_RotationMatrix st end.
Proof.
  destruct ev as [[g|]|inp|]; cbn [step UpdateUI Render]; try reflexivity.
  all: now rewrite PopulateInstanceBuffer_eq.
Qed.

Lemma step_constants (ev : Event) (st : AppState) :
  second_constant_is (m_RotationMatrix st) (step E ev st).2.
Proof.
  unfold second_constant_is.
  destruct ev as [[g|]|inp|]; cbn [step UpdateUI Render];
    try rewrite PopulateInstanceBuffer_eq; cbn [snd app];
    repeat (apply Forall_cons; split; [exact I || reflexivity|]);
    apply Forall_nil_2.
Qed.

Lemma run_constants (evs : list Event) (st : AppState) :
  m_RotationMatrix st = Identity ->
  m_RotationMatrix (run E evs st).1 = Identity /\
  second_constant_is Identity (run E evs st).2.
Proof.
  revert st. induction evs as [|ev evs IH]; intros st Hst.
  - split; [exact Hst|apply Forall_nil_2].
  - cbn [run].
    pose proof (step_rotation ev st) as Hr.
    pose proof (step_constants ev st) as Hc.
    destruct (step E ev st) as [st1 cmds1]. cbn [fst snd] in Hr, Hc.
    assert (H1 : m_RotationMatrix st1 = Identity).
    { rewrite Hr. now destruct ev. }
    destruct (IH st1 H1) as [IH1 IH2].
    destruct (run E evs st1) as [st2 cmds2]. cbn [fst snd] in *.
    split; [exact IH1|].
    apply Forall_app. split; [|exact IH2]. now rewrite <- Hst.
Qed.

(** C9: [Update] stores the identity in [m_RotationMatrix]; no other call
    of the sample changes that member; so, from the first call of
    [Update] on, whatever calls follow, the member is the identity and
    every write of the uniform constants carries the identity as its
    second matrix. *)
Theorem rotation_constant_is_identity (inp : FrameInput) (evs : list Event)
    (st : AppState) :
  m_RotationMatrix (Update E inp st) = Identity /\
  (forall ev st', m_RotationMatrix (step E ev st').1 =
                  match ev with EvUpdate _ => Identity | _ => m_RotationMatrix st' end) /\
  m_RotationMatrix (run E (EvUpdate inp :: evs) st).1 = Identity /\
  second_constant_is Identity (run E (EvUpdate inp :: evs) st).2 /\
  List.filter (fun c => match c with MapWrite _ _ => true | _ => false end)
              (Render E (Update E inp st)).2 =
    [MapWrite VSConstants [m_ViewProjMatrix (Update E inp st); Identity]].
Proof.
  split; [reflexivity|].
  split; [exact step_rotation|].
  cbn [run step].
  destruct (run_constants evs (Update E inp st) eq_refl) as [H1 H2].
  destruct (run E evs (Update E inp st)) as [st2 cmds2].
  split; [exact H1|]. split; [exact H2|].
  unfold Render. now rewrite PopulateInstanceBuffer_eq.
Qed.
End FrameConstants.

Section ViewMatrix.
Context (E : Engine).
Local Notation "A ** B" := (mat_mul E A B) (at level 40, left associativity).

(** C5: the matrix [Update] stores in [m_ViewProjMatrix] is
    [View * SurfacePretransform * Projection].  With [c] the camera after
    the drag, the clamp and the wheel of this call: the offset is
    [distance * (cos pitch sin yaw, sin pitch, cos pitch cos yaw)];
    [forward] is the normalised [target - (target + offset)], [right] the
    normalised cross product of the world up vector and [forward], and
    [camUp] the cross product of [forward] and [right]; the rows of
    [View] are [(right.x, camUp.x, forward.x, 0)], the same for y and z,
    and [(-dot(right, cameraPos), -dot(camUp, cameraPos),
    -dot(forward, cameraPos), 1)], where [cameraPos] is the target after
    the panning of this call plus the offset.  When no arrow key is held
    the target is unchanged and [cameraPos] is the eye position the basis
    was derived from. *)
Theorem view_projection_derivation (inp : FrameInput) (st : AppState) :
  let c := view_camera inp (camera st) in
  let offset :=
    V3.mk (distance c * cosf E (pitch c) * sinf E (yaw c))%f32
          (distance c * sinf E (pitch c))%f32
          (distance c * cosf E (pitch c) * cosf E (yaw c))%f32 in
  let eye := V3.add (target c) offset in
  let forward := normalize E (V3.sub (target c) eye) in
  let right := normalize E (cross E (V3.mk (0#1) (1#1) (0#1))%f32 forward) in
  let camUp := cross E forward right in
  let target' := target (camera (Update E inp st)) in
  let cameraPos := V3.add target' offset in
  let View :=
    {| _11 := V3.x right; _12 := V3.x camUp; _13 := V3.x forward; _14 := (0#1)%f32;
       _21 := V3.y right; _22 := V3.y camUp; _23 := V3.y forward; _24 := (0#1)%f32;
       _31 := V3.z right; _32 := V3.z camUp; _33 := V3.z forward; _34 := (0#1)%f32;
       _41 := (- dot E right cameraPos)%f32;
       _42 := (- dot E camUp cameraPos)%f32;
       _43 := (- dot E forward cameraPos)%f32;
       _44 := (1#1)%f32 |} in
  m_ViewProjMatrix (Update E inp st) =
    View ** GetSurfacePretransformMatrix inp (V3.mk (F32.of_Z 0) (F32.of_Z 0) (F32.of_Z 1))
         ** GetAdjustedProjectionMatrix inp (PI_F / (4#1))%f32 (1#10)%f32 (100#1)%f32 /\
  target' =
    target (pan_block inp {| offset := offset; forward := forward;
                             right := right; camUp := camUp |} c) /\
  (no_key inp -> target' = target c /\ cameraPos = eye).
Proof.
  intros c offset eye forward right camUp target' cameraPos View.
  assert (Ht : target' =
    target (pan_block inp {| offset := offset; forward := forward;
                             right := right; camUp := camUp |} c)).
  { subst target'. rewrite Update_camera. cbn zeta.
    now rewrite preset_block_target. }
  split; [|split; [exact Ht|]].
  - subst View cameraPos. rewrite Ht. reflexivity.
  - intros Hk. subst cameraPos. rewrite Ht, pan_block_idle by exact Hk.
    split; reflexivity.
Qed.
End ViewMatrix.

Lemma view_projection_derivation_witness :
  let inp := Reference.idle (F64.of_Z 0) Identity in
  let st := Reference.start 1 in
  no_key inp /\
  target (camera (Update Reference.engine inp st)) = target (camera st) /\
  m_ViewProjMatrix (Update Reference.engine inp st) =
    {| _11 := F32.of_Z (-1); _12 := F32.of_Z 0; _13 := F32.of_Z 0; _14 := F32.of_Z 0;
       _21 := F32.of_Z 0; _22 := F32.of_Z 1; _23 := F32.of_Z 0; _24 := F32.of_Z 0;
       _31 := F32.of_Z 0; _32 := F32.of_Z 0; _33 := F32.of_Z (-1); _34 := F32.of_Z 0;
       _41 := F32.of_Z 0; _42 := F32.of_Z 4; _43 := F32.of_Z 20; _44 := F32.of_Z 1 |}.
Proof.
  intros inp st.
  assert (Hk : no_key inp) by (repeat split).
  destruct (view_projection_derivation Reference.engine inp st) as (Hm & _ & Hn).
  destruct (Hn Hk) as [Ht _].
  split; [exact Hk|]. split.
  - rewrite Ht. reflexivity.
  - rewrite Hm. vm_compute. reflexivity.
Defined.

(** ** Process start *)

Section ProcessStart.
Context (E : Engine).

Lemma step_angle_camera_idle (ev : Event) (st : AppState) :
  match ev with
  | EvUpdate _ => angle (step E ev st).1 = angle st
  | _ => camera (step E ev st).1 = camera st
  end.
Proof.
  destruct ev as [[g|]|inp|]; cbn [step UpdateUI Render]; try reflexivity.
  all: now rewrite PopulateInstanceBuffer_eq.
Qed.

(** C10: at process start the statics of [Update] are yaw 0, pitch 0,
    distance 20 and target (0, -4, 0), exactly; the shared angle is
    [PI_F], the single-precision number nearest to pi, less than [2^-23]
    away from it.  The camera keeps these values until the first call of
    [Update]: the other calls of the sample leave it alone. *)
Theorem statics_at_process_start (g : Z) (gamma : bool) (vp rot : float4x4) :
  let st := initial_state g gamma vp rot in
  yaw (camera st) = F32.of_Z 0 /\
  pitch (camera st) = F32.of_Z 0 /\
  distance (camera st) = F32.of_Z 20 /\
  target (camera st) = V3.mk (F32.of_Z 0) (F32.of_Z (-4)) (F32.of_Z 0) /\
  angle st = PI_F /\
  (SF2R (yaw (camera st)) = 0 /\ SF2R (pitch (camera st)) = 0 /\
   SF2R (distance (camera st)) = 20 /\
   SF2R (V3.x (target (camera st))) = 0 /\
   SF2R (V3.y (target (camera st))) = -4 /\
   SF2R (V3.z (target (camera st))) = 0 /\
   Rabs (SF2R (angle st) - PI) < / 2 ^ 23)%R /\
  (forall slider, camera (UpdateUI E slider st).1 = camera st) /\
  camera (Render E st).1 = camera st.
Proof.
  intros st.
  assert (Hc : camera st = {| yaw := S754_zero false; pitch := S754_zero false;
                              distance := S754_finite false 10485760 (-19);
                              target := V3.mk (S754_zero false)
                                              (S754_finite true 8388608 (-21))
                                              (S754_zero false) |})
    by (vm_compute; reflexivity).
  assert (Ha : angle st = PI_F) by (vm_compute; reflexivity).
  rewrite Hc, Ha. cbn [yaw pitch distance target V3.x V3.y V3.z].
  split; [reflexivity|]. split; [reflexivity|].
  split; [vm_compute; reflexivity|]. split; [vm_compute; reflexivity|].
  split; [reflexivity|].
  split.
  - pose proof PI_bounds as HPI. unfold PI_F.
    cbv [SF2R cond_Zopp powerRZ Z.opp]. simpl Rpow_def.pow.
    repeat split; try lra.
    apply Rabs_def1; lra.
  - split.
    + intros slider. rewrite <- Hc.
      exact (step_angle_camera_idle (EvUpdateUI slider) st).
    + rewrite <- Hc. exact (step_angle_camera_idle EvRender st).
Qed.
End ProcessStart.

(** ** The texture array builder *)

Section IndexedStores.
Context {A K : Type} (idx : K -> nat) (val : K -> A).

(** A loop that stores [val k] at index [idx k] for each key of a list. *)
Lemma foldl_insert_length (ks : list K) (acc : list A) :
  length (foldl (fun a k => <[idx k := val k]> a) acc ks) = length acc.
Proof.
  revert acc. induction ks as [|k ks IH]; intros acc; [reflexivity|].
  cbn [foldl]. now rewrite IH, length_insert.
Qed.

Lemma foldl_insert_lookup (ks : list K) (acc : list A) (k : K) :
  k ∈ ks -> (idx k < length acc)%nat ->
  (forall k', k' ∈ ks -> idx k' = idx k -> val k' = val k) ->
  foldl (fun a k => <[idx k := val k]> a) acc ks !! idx k = Some (val k).
Proof.
  induction ks as [|kl ks IH] using rev_ind; intros Hin Hlt Hinj.
  - now apply elem_of_nil in Hin.
  - rewrite foldl_app. cbn [foldl].
    destruct (decide (idx kl = idx k)) as [Heq|Hne].
    + rewrite Heq, list_lookup_insert_eq by (now rewrite foldl_insert_length).
      f_equal. apply Hinj; [|exact Heq]. apply elem_of_app. right. now left.
    + rewrite list_lookup_insert_ne by exact Hne.
      apply IH; [|exact Hlt|].
      * apply elem_of_app in Hin as [Hin|Hin]; [exact Hin|].
        apply list_elem_of_singleton in Hin. now subst.
      * intros k' Hk'. apply Hinj, elem_of_app. now left.
Qed.
End IndexedStores.

(** A nested loop is a loop over the pairs of its indices. *)
Lemma foldl_nested {A B C : Type} (f : A -> B -> C -> A) (g : B -> list C)
    (bs : list B) (acc : A) :
  foldl (fun a b => foldl (fun a c => f a b c) a (g b)) acc bs =
  foldl (fun a p => f a p.1 p.2) acc (b ← bs; (fun c => (b, c)) <$> g b).
Proof.
  revert acc. induction bs as [|b bs IH]; intros acc; [reflexivity|].
  cbn [foldl mbind list_bind]. rewrite foldl_app, foldl_fmap. apply IH.
Qed.

Section TextureArrayBuilder.
Context {TextureSubResData : Type} `{Inhabited TextureSubResData}.
Variable CreateTextureLoaderFromFile : string -> option (@ITextureLoader TextureSubResData).
(** The loader of the file of each texture. *)
Variable L : Z -> @ITextureLoader TextureSubResData.

Lemma head_loaders (n : nat) :
  head ((L <$> seqZ 0 (Z.of_nat n)) ++ [L (Z.of_nat n)]) = Some (L 0).
Proof.
  destruct n as [|n]; [reflexivity|].
  rewrite seqZ_cons by lia. reflexivity.
Qed.

Lemma load_loaders_ok (n : nat) :
  (forall tex, 0 <= tex < Z.of_nat n ->
     CreateTextureLoaderFromFile (FileName tex) = Some (L tex) /\
     GetTextureDesc (L tex) = GetTextureDesc (L 0)) ->
  load_loaders CreateTextureLoaderFromFile (Z.of_nat n) =
    Some (L <$> seqZ 0 (Z.of_nat n)).
Proof.
  unfold load_loaders. induction n as [|n IH]; intros Hfiles; [reflexivity|].
  rewrite seqZ_S, foldl_app, IH by (intros tex Htex; apply Hfiles; lia).
  cbn [foldl mbind option_bind]. rewrite Z.add_0_l.
  destruct (Hfiles (Z.of_nat n)) as [-> Hdesc]; [lia|].
  cbn [mbind option_bind]. rewrite head_loaders. cbn [mbind option_bind].
  rewrite decide_True by (right; exact Hdesc).
  now rewrite fmap_app.
Qed.

Lemma slice_mip_index (M s m s' m' : Z) :
  0 <= m < M -> 0 <= m' < M -> s * M + m = s' * M + m' -> s = s' /\ m = m'.
Proof.
  intros Hm Hm' Heq.
  assert (Hs : s = s').
  { destruct (Z.lt_trichotomy s s') as [Hlt|[Heq'|Hgt]]; [|exact Heq'|].
    - assert ((s + 1) * M <= s' * M) by (apply Z.mul_le_mono_nonneg_r; lia). lia.
    - assert ((s' + 1) * M <= s * M) by (apply Z.mul_le_mono_nonneg_r; lia). lia. }
  subst s'. split; [reflexivity|lia].
Qed.

Lemma fill_SubresData_ok (n : nat) (desc : TextureDesc) :
  ArraySize desc = Z.of_nat n -> 0 <= MipLevels desc ->
  ArraySize desc * MipLevels desc < Uint32_modulus ->
  let data := fill_SubresData (L <$> seqZ 0 (Z.of_nat n)) desc in
  length data = Z.to_nat (Z.of_nat n * MipLevels desc) /\
  forall slice mip, 0 <= slice < Z.of_nat n -> 0 <= mip < MipLevels desc ->
    data !! Z.to_nat (slice * MipLevels desc + mip) =
      Some (GetSubresourceData (L slice) mip 0).
Proof.
  intros HN HM Hsmall. unfold fill_SubresData. rewrite HN in *.
  set (M := MipLevels desc) in *.
  rewrite (foldl_nested
             (fun a slice mip =>
                <[Z.to_nat (to_Uint32 (slice * M + mip)) :=
                    GetSubresourceData ((L <$> seqZ 0 (Z.of_nat n)) !!! Z.to_nat slice) mip 0]> a)
             (fun _ => seqZ 0 M)).
  set (idx := fun p : Z * Z => Z.to_nat (to_Uint32 (p.1 * M + p.2))).
  set (val := fun p : Z * Z =>
                GetSubresourceData ((L <$> seqZ 0 (Z.of_nat n)) !!! Z.to_nat p.1) p.2 0).
  set (pairs := _ ≫= _).
  assert (Hlen : to_Uint32 (Z.of_nat n * M) = Z.of_nat n * M).
  { unfold to_Uint32. apply Z.mod_small. nia. }
  assert (Hpairs : forall p, p ∈ pairs -> 0 <= p.1 < Z.of_nat n /\ 0 <= p.2 < M).
  { intros p (s & Hp & Hs)%list_elem_of_bind.
    apply list_elem_of_fmap in Hp as (m & -> & Hm).
    apply elem_of_seqZ in Hs, Hm. cbn. lia. }
  assert (Hidx : forall p, 0 <= p.1 < Z.of_nat n -> 0 <= p.2 < M ->
                   idx p = Z.to_nat (p.1 * M + p.2)).
  { intros p H1 H2. unfold idx, to_Uint32. rewrite Z.mod_small; [reflexivity|]. nia. }
  set (acc := replicate _ _).
  assert (Hacc : length acc = Z.to_nat (Z.of_nat n * M)).
  { subst acc. now rewrite length_replicate, Hlen. }
  cbn zeta. split.
  - pose proof (foldl_insert_length idx val pairs acc) as Hl.
    rewrite Hacc in Hl. exact Hl.
  - intros slice mip Hs Hm.
    pose proof (Hidx (slice, mip) Hs Hm) as Hi. cbn [fst snd] in Hi.
    rewrite <- Hi.
    replace (GetSubresourceData (L slice) mip 0) with (val (slice, mip)).
    + apply (foldl_insert_lookup idx val pairs acc).
      * apply list_elem_of_bind. exists slice. split.
        -- apply list_elem_of_fmap. exists mip. split; [reflexivity|].
           apply elem_of_seqZ. lia.
        -- apply elem_of_seqZ. lia.
      * rewrite Hacc, Hi. apply Z2Nat.inj_lt; nia.
      * intros p Hp Heq. destruct (Hpairs p Hp) as [H1 H2].
        rewrite Hi, Hidx in Heq by assumption.
        apply Z2Nat.inj in Heq; [|nia|nia].
        destruct (slice_mip_index M p.1 p.2 slice mip H2 Hm Heq) as [E1 E2].
        destruct p as [s m]. cbn in E1, E2. now subst.
    + unfold val. cbn [fst snd].
      rewrite (list_lookup_total_fmap L (seqZ 0 (Z.of_nat n)) (Z.to_nat slice))
        by (rewrite length_seqZ; lia).
      rewrite lookup_total_seqZ_lt by lia.
      now rewrite Z.add_0_l, Z2Nat.id by lia.
Qed.
End TextureArrayBuilder.

Section TextureArrayClaim.
Context {TextureSubResData : Type} `{Inhabited TextureSubResData}.
Variable CreateTextureLoaderFromFile : string -> option (@ITextureLoader TextureSubResData).
Variable L : Z -> @ITextureLoader TextureSubResData.

(** C3: when the [NumTextures] files load and every loader reports the
    description of the first one, [LoadTextures] creates a 2D array
    texture whose array size is [NumTextures], with the width, height,
    format and mip count of the images, initialised with
    [NumTextures * MipLevels] subresources; the subresource of image
    [slice] at level [mip] is at index [slice * MipLevels + mip]. *)
Theorem texture_array_layout (NumTextures : Z) :
  let M := MipLevels (GetTextureDesc (L 0)) in
  0 < NumTextures ->
  0 <= M ->
  NumTextures * M < Uint32_modulus ->
  NumTextures < Uint32_modulus ->
  (forall tex, 0 <= tex < NumTextures ->
     CreateTextureLoaderFromFile (FileName tex) = Some (L tex) /\
     GetTextureDesc (L tex) = GetTextureDesc (L 0)) ->
  exists (TexArrDesc : TextureDesc) (InitData : TextureData),
    LoadTextures CreateTextureLoaderFromFile NumTextures = Some (TexArrDesc, InitData) /\
    ArraySize TexArrDesc = NumTextures /\
    Type_ TexArrDesc = RESOURCE_DIM_TEX_2D_ARRAY /\
    (Width TexArrDesc, Height TexArrDesc, Format TexArrDesc, MipLevels TexArrDesc) =
      (Width (GetTextureDesc (L 0)), Height (GetTextureDesc (L 0)),
       Format (GetTextureDesc (L 0)), M) /\
    NumSubresources InitData = M * NumTextures /\
    length (pSubResources InitData) = Z.to_nat (NumTextures * M) /\
    forall slice mip, 0 <= slice < NumTextures -> 0 <= mip < M ->
      pSubResources InitData !! Z.to_nat (slice * M + mip) =
        Some (GetSubresourceData (L slice) mip 0).
Proof.
  intros M HN HM Hsmall HN32 Hfiles.
  destruct (Z_of_nat_complete NumTextures) as [n ->]; [lia|].
  assert (Hu : to_Uint32 (Z.of_nat n) = Z.of_nat n).
  { unfold to_Uint32. apply Z.mod_small. lia. }
  unfold LoadTextures.
  rewrite (load_loaders_ok _ L n Hfiles). cbn [mbind option_bind].
  assert (Hhead : head (L <$> seqZ 0 (Z.of_nat n)) = Some (L 0))
    by (rewrite seqZ_cons by lia; reflexivity).
  rewrite Hhead. cbn [mbind option_bind].
  set (desc := set_array_fields (Z.of_nat n) (GetTextureDesc (L 0))).
  assert (HA : ArraySize desc = Z.of_nat n) by exact Hu.
  assert (HMd : MipLevels desc = M) by reflexivity.
  destruct (fill_SubresData_ok L n desc HA) as [Hlen Hget];
    [rewrite HMd; exact HM|rewrite HA, HMd; exact Hsmall|].
  rewrite HMd in Hlen, Hget.
  eexists _, _. split; [reflexivity|].
  cbn [pSubResources NumSubresources].
  split; [exact HA|]. split; [reflexivity|]. split; [reflexivity|].
  split; [|split; [exact Hlen|exact Hget]].
  rewrite HA, HMd. unfold to_Uint32. apply Z.mod_small. nia.
Qed.
End TextureArrayClaim.

Lemma texture_array_layout_witness :
  0 < 4 /\ 4 * MipLevels Demo.desc < Uint32_modulus /\
  exists (TexArrDesc : TextureDesc) (InitData : TextureData),
    LoadTextures Demo.files 4 = Some (TexArrDesc, InitData) /\
    ArraySize TexArrDesc = 4 /\
    length (pSubResources InitData) = 12%nat /\
    pSubResources InitData !! Z.to_nat (2 * 3 + 1) = Some (2, 1).
Proof.
  split; [lia|]. split; [reflexivity|].
  destruct (texture_array_layout Demo.files Demo.loader 4)
    as (d & i & Hload & Hsize & _ & _ & _ & Hlen & Hget);
    try (cbn; lia); try reflexivity.
  - intros tex Htex.
    assert (Hc : tex = 0 \/ tex = 1 \/ tex = 2 \/ tex = 3) by lia.
    destruct Hc as [-> | [-> | [-> | ->]]]; split; reflexivity.
  - exists d, i. split; [exact Hload|]. split; [exact Hsize|].
    split; [exact Hlen|]. apply (Hget 2 1); cbn; lia.
Defined.

(** * Further properties of the sample *)

(** ** View buttons and the pointer *)

Section CameraExtras.
Context (E : Engine).

Lemma on_button_yaw inp b y p c :
  yaw (on_button inp b y p c) = if Button inp b then y else yaw c.
Proof. unfold on_button. now destruct (Button inp b). Qed.

Lemma on_button_pitch inp b y p c :
  pitch (on_button inp b y p c) = if Button inp b then p else pitch c.
Proof. unfold on_button. now destruct (Button inp b). Qed.

(** The buttons are tested in the order of the source and each pressed
    one overwrites the yaw and the pitch: the last pressed one decides. *)
Lemma preset_block_last inp b c :
  Button inp b = true ->
  (forall b', (button_rank b < button_rank b')%nat -> Button inp b' = false) ->
  (yaw (preset_block inp c), pitch (preset_block inp c)) = preset_of b.
Proof.
  intros Hb Hlater. unfold preset_block.
  rewrite !on_button_yaw, !on_button_pitch.
  destruct b;
    repeat match goal with
      | |- context [Button inp ?b'] =>
          first [ rewrite Hb | rewrite (Hlater b') by (cbn; lia) ]
      end;
    reflexivity.
Qed.

Lemma preset_block_ext inp inp' c c' :
  (forall b, Button inp b = Button inp' b) ->
  yaw c = yaw c' -> pitch c = pitch c' ->
  yaw (preset_block inp c) = yaw (preset_block inp' c') /\
  pitch (preset_block inp c) = pitch (preset_block inp' c').
Proof.
  intros Hb Hy Hp. unfold preset_block.
  rewrite !on_button_yaw, !on_button_pitch, !Hb, Hy, Hp. split; reflexivity.
Qed.

Lemma view_camera_yaw inp c :
  yaw (view_camera inp c) =
  if IsMouseDragging inp then (yaw c + dragDelta_x inp * sensitivity)%f32 else yaw c.
Proof.
  unfold view_camera.
  destruct (wheel_block_angles inp (clamp_pitch_block (drag_block inp c)))
    as (-> & _ & _).
  destruct (clamp_pitch_block_others (drag_block inp c)) as (-> & _ & _).
  unfold drag_block. now destruct (IsMouseDragging inp).
Qed.

Lemma view_camera_target inp c : target (view_camera inp c) = target c.
Proof.
  unfold view_camera.
  destruct (wheel_block_angles inp (clamp_pitch_block (drag_block inp c)))
    as (_ & _ & ->).
  destruct (clamp_pitch_block_others (drag_block inp c)) as (_ & _ & ->).
  now destruct (drag_block_others inp c) as (_ & _ & ->).
Qed.

(** X1: when a view button is pressed and none of the buttons that follow
    it in the source is, the call of [Update] ends with the yaw and the
    pitch of that button, whatever they were before and whatever else
    happened in the frame; the buttons never touch the distance or the
    target. *)
Theorem last_pressed_button_sets_view (inp : FrameInput) (st : AppState)
    (b : ViewButton) :
  Button inp b = true ->
  (forall b', (button_rank b < button_rank b')%nat -> Button inp b' = false) ->
  let c' := camera (Update E inp st) in
  (yaw c', pitch c') = preset_of b /\
  distance c' = distance (view_camera inp (camera st)) /\
  target c' = target (pan_block inp (orbit_basis E (view_camera inp (camera st)))
                        (view_camera inp (camera st))).
Proof.
  intros Hb Hlater c'. subst c'. rewrite Update_camera. cbn zeta.
  split; [now apply preset_block_last|].
  rewrite preset_block_distance, preset_block_target.
  split; [|reflexivity].
  now destruct (pan_block_angles inp (orbit_basis E (view_camera inp (camera st)))
                  (view_camera inp (camera st))) as (_ & _ & ->).
Qed.

(** X2: the yaw, the pitch and the distance after a call of [Update]
    depend only on their values before it, on the drag flag, the
    horizontal drag delta, the wheel and the buttons: not on the engine,
    the vertical drag delta, the arrow keys, the elapsed time, the target
    or the two matrices of the window. *)
Theorem angles_depend_on_pointer_only (E' : Engine) (inp inp' : FrameInput)
    (st st' : AppState) :
  same_pointer_input inp inp' ->
  angles (camera st) = angles (camera st') ->
  angles (camera (Update E inp st)) = angles (camera (Update E' inp' st')).
Proof.
  intros (Hdrag & Hdx & Hw & Hb) Hc. unfold angles in *.
  injection Hc as Hy Hp Hd.
  rewrite !Update_distance, !wheel_block_distance_cases, Hw, Hd.
  rewrite !Update_camera. cbn zeta.
  destruct (preset_block_ext inp inp'
              (pan_block inp (orbit_basis E (view_camera inp (camera st)))
                 (view_camera inp (camera st)))
              (pan_block inp' (orbit_basis E' (view_camera inp' (camera st')))
                 (view_camera inp' (camera st'))) Hb) as [-> ->];
    [| |reflexivity].
  - destruct (pan_block_angles inp (orbit_basis E (view_camera inp (camera st)))
                (view_camera inp (camera st))) as (-> & _ & _).
    destruct (pan_block_angles inp' (orbit_basis E' (view_camera inp' (camera st')))
                (view_camera inp' (camera st'))) as (-> & _ & _).
    now rewrite !view_camera_yaw, Hdrag, Hdx, Hy.
  - destruct (pan_block_angles inp (orbit_basis E (view_camera inp (camera st)))
                (view_camera inp (camera st))) as (_ & -> & _).
    destruct (pan_block_angles inp' (orbit_basis E' (view_camera inp' (camera st')))
                (view_camera inp' (camera st'))) as (_ & -> & _).
    now rewrite !view_camera_pitch, !clamp_pitch_block_pitch, Hp.
Qed.
End CameraExtras.

Section CameraExtras2.
Context (E : Engine).

(** X3: a wheel delta that is zero (of either sign) or NaN fails the test
    [fabs(wheel) > 0]: the call of [Update] keeps the distance. *)
Theorem wheel_zero_or_nan_keeps_distance (inp : FrameInput) (st : AppState) :
  MouseWheel inp = S754_nan \/ (exists s, MouseWheel inp = S754_zero s) ->
  distance (camera (Update E inp st)) = distance (camera st).
Proof.
  intros Hw. rewrite Update_distance, wheel_block_distance_cases.
  destruct Hw as [-> | [s ->]]; reflexivity.
Qed.

(** X4: an infinite wheel delta sends a finite distance to the end of
    its range: [+inf] to 1 and [-inf] to 100. *)
Theorem wheel_infinite_saturates (inp : FrameInput) (st : AppState) (s : bool) :
  is_finite (distance (camera st)) = true ->
  MouseWheel inp = S754_infinity s ->
  distance (camera (Update E inp st)) = if s then (100#1)%f32 else (1#1)%f32.
Proof.
  intros Hd Hw. rewrite Update_distance, wheel_block_distance_cases, Hw.
  destruct (distance (camera st)) as [sd|sd| |sd md ed]; try discriminate;
    destruct s; reflexivity.
Qed.

Lemma clamp_pitch_block_idem (c : CameraState) :
  clamp_pitch_block (clamp_pitch_block c) = clamp_pitch_block c.
Proof.
  unfold clamp_pitch_block.
  destruct (F32.ltb pitchLimit (pitch c)) eqn:H1; cbn [pitch set_pitch].
  - reflexivity.
  - destruct (F32.ltb (pitch c) (F32.opp pitchLimit)) eqn:H2; cbn [pitch set_pitch].
    + reflexivity.
    + now rewrite H1, H2.
Qed.

Lemma Update_no_input (inp : FrameInput) (st : AppState) :
  no_input inp -> camera (Update E inp st) = clamp_pitch_block (camera st).
Proof.
  intros (Hdrag & Hw & Hu & Hd & Hr & Hl & Hb).
  rewrite Update_camera. cbn zeta.
  rewrite preset_block_idle by exact Hb.
  rewrite pan_block_idle by (repeat split; assumption).
  unfold view_camera. rewrite wheel_block_idle by exact Hw.
  unfold drag_block. now rewrite Hdrag.
Qed.

(** X5: a call of [Update] without input only clamps the pitch, and a
    second such call changes nothing: the camera is at rest after one
    idle frame. *)
Theorem idle_update_is_idempotent (inp inp' : FrameInput) (st : AppState) :
  no_input inp -> no_input inp' ->
  camera (Update E inp st) = clamp_pitch_block (camera st) /\
  camera (Update E inp' (Update E inp st)) = camera (Update E inp st).
Proof.
  intros H1 H2. rewrite !Update_no_input by assumption.
  split; [reflexivity|apply clamp_pitch_block_idem].
Qed.

(** X6: the pitch of a view button survives the clamp of the next frame
    unless the button is "Up" or "Down": their [PI_F/2] and [-PI_F/2] are
    replaced by the limit [1.57f * 0.99f] and its opposite, so the
    straight top and bottom views are never used for a frame. *)
Theorem button_pitch_after_next_clamp (inp inp' : FrameInput) (st : AppState)
    (b : ViewButton) :
  Button inp b = true ->
  (forall b', (button_rank b < button_rank b')%nat -> Button inp b' = false) ->
  (forall b', Button inp' b' = false) ->
  pitch (camera (Update E inp' (Update E inp st))) =
    match b with
    | Up => pitchLimit
    | Down => (- pitchLimit)%f32
    | _ => (preset_of b).2
    end.
Proof.
  intros Hb Hlater Hnone.
  assert (Hp : pitch (camera (Update E inp st)) = (preset_of b).2).
  { rewrite Update_camera. cbn zeta.
    match goal with |- pitch (preset_block inp ?c) = _ =>
      now rewrite <- (preset_block_last inp b c Hb Hlater) end. }
  rewrite (Update_camera E inp'). cbn zeta.
  rewrite preset_block_idle by exact Hnone.
  destruct (pan_block_angles inp'
              (orbit_basis E (view_camera inp' (camera (Update E inp st))))
              (view_camera inp' (camera (Update E inp st)))) as (_ & -> & _).
  rewrite view_camera_pitch, clamp_pitch_block_pitch, Hp.
  destruct b; vm_compute; reflexivity.
Qed.
End CameraExtras2.

(** ** The frame loop *)

Section FrameLoopExtras.
Context (E : Engine).

Lemma step_state (ev : Event) (st : AppState) :
  (step E ev st).1 =
  match ev with
  | EvUpdate inp => Update E inp st
  | EvUpdateUI None => st
  | EvUpdateUI (Some g) => set_angle (advance (angle st)) (set_GridSize g st)
  | EvRender => set_angle (advance (angle st)) st
  end.
Proof.
  destruct ev as [[g|]|inp|]; cbn [step UpdateUI Render]; try reflexivity.
  all: now rewrite PopulateInstanceBuffer_eq.
Qed.

Lemma step_uploads (ev : Event) (st : AppState) :
  List.filter is_upload (step E ev st).2 =
  if populates ev
  then [UpdateBuffer InstanceBuffer 0 1496
          (map (instance_of E (advance (angle st))) scene)]
  else [].
Proof.
  destruct ev as [[g|]|inp|]; cbn [step UpdateUI Render populates]; try reflexivity.
  all: now rewrite PopulateInstanceBuffer_eq.
Qed.

Lemma run_cons (ev : Event) (evs : list Event) (st : AppState) :
  run E (ev :: evs) st =
  ((run E evs (step E ev st).1).1, (step E ev st).2 ++ (run E evs (step E ev st).1).2).
Proof.
  cbn [run]. destruct (step E ev st) as [st1 c1]. cbn [fst snd].
  now destruct (run E evs st1).
Qed.

Lemma run_angle (evs : list Event) (st : AppState) :
  angle (run E evs st).1 =
    Nat.iter (length (List.filter populates evs)) advance (angle st).
Proof.
  revert st. induction evs as [|ev evs IH]; intros st; [reflexivity|].
  rewrite run_cons. cbn [fst List.filter]. rewrite IH, step_state.
  destruct ev as [[g|]|inp|]; cbn [populates length angle set_angle Update];
    try reflexivity; now rewrite Nat.iter_succ_r.
Qed.

Lemma run_upload_count (evs : list Event) (st : AppState) :
  length (List.filter is_upload (run E evs st).2) =
    length (List.filter populates evs).
Proof.
  revert st. induction evs as [|ev evs IH]; intros st; [reflexivity|].
  rewrite run_cons. cbn [snd List.filter].
  rewrite List.filter_app, length_app, IH, step_uploads.
  now destruct (populates ev).
Qed.

(** X7: the shared angle after any sequence of calls is its value before,
    advanced once for every render and once for every change of the grid
    slider (so moving the slider turns the scene faster); calls of
    [Update] do not move it.  The command stream holds as many uploads of
    the instance buffer. *)
Theorem angle_counts_renders_and_slider_changes (evs : list Event) (st : AppState) :
  angle (run E evs st).1 =
    Nat.iter (length (List.filter populates evs)) advance (angle st) /\
  length (List.filter is_upload (run E evs st).2) =
    length (List.filter populates evs).
Proof. split; [apply run_angle|apply run_upload_count]. Qed.

Lemma run_grid_size (evs : list Event) (st : AppState) :
  m_GridSize (run E evs st).1 = last_slider (m_GridSize st) evs.
Proof.
  revert st. induction evs as [|ev evs IH]; intros st; [reflexivity|].
  rewrite run_cons. cbn [fst]. rewrite IH, step_state.
  now destruct ev as [[g|]|inp|].
Qed.

Lemma Render_draws (st : AppState) :
  List.filter is_draw (Render E st).2 =
    [DrawIndexed {| IndexType := VT_UINT32;
                    NumIndices := 36;
                    NumInstances :=
                      to_Uint32 (int_mul (int_mul (m_GridSize st) (m_GridSize st))
                                         (m_GridSize st));
                    Flags := DRAW_FLAG_VERIFY_ALL |}] /\
  uploaded (Render E st).2 = map (instance_of E (advance (angle st))) scene.
Proof.
  unfold Render. rewrite PopulateInstanceBuffer_eq. split; [reflexivity|].
  cbn [snd app uploaded flat_map]. now rewrite app_nil_r.
Qed.

(** X8: the grid size a frame draws with is the last value the slider
    stored before it, or the initial one if the slider never moved: for a
    value within 1..32 the frame rendered after any sequence of calls
    draws that value cubed. *)
Theorem render_uses_last_slider_value (evs : list Event) (st : AppState) :
  let g := last_slider (m_GridSize st) evs in
  1 <= g <= 32 ->
  m_GridSize (run E evs st).1 = g /\
  List.filter is_draw (Render E (run E evs st).1).2 =
    [DrawIndexed {| IndexType := VT_UINT32;
                    NumIndices := 36;
                    NumInstances := g ^ 3;
                    Flags := DRAW_FLAG_VERIFY_ALL |}].
Proof.
  intros g Hg. pose proof (run_grid_size evs st) as Hrun. fold g in Hrun.
  split; [exact Hrun|].
  destruct (Render_draws (run E evs st).1) as [-> _].
  now rewrite Hrun, grid_cube.
Qed.

(** X9: a frame uploads 22 instance records and draws [gridSize^3]
    instances: for a grid size within 1..32 the draw asks for more
    instances than the frame uploaded exactly when the grid size is 3 or
    more. *)
Theorem draw_exceeds_uploaded_records (st : AppState) :
  1 <= m_GridSize st <= 32 ->
  exists n : Z,
    List.filter is_draw (Render E st).2 =
      [DrawIndexed {| IndexType := VT_UINT32; NumIndices := 36;
                      NumInstances := n; Flags := DRAW_FLAG_VERIFY_ALL |}] /\
    length (uploaded (Render E st).2) = 22%nat /\
    (Z.of_nat (length (uploaded (Render E st).2)) < n <-> 3 <= m_GridSize st).
Proof.
  intros Hg. destruct (Render_draws st) as [Hd Hu].
  exists (m_GridSize st ^ 3). rewrite Hd, Hu, grid_cube by exact Hg.
  split; [reflexivity|]. rewrite length_map, scene_length.
  split; [reflexivity|].
  replace (m_GridSize st ^ 3) with (m_GridSize st * m_GridSize st * m_GridSize st)
    by (change 3 with (Z.succ (Z.succ 1)); rewrite !Z.pow_succ_r, Z.pow_1_r by lia; ring).
  split; intros H.
  - destruct (Z.le_gt_cases 3 (m_GridSize st)) as [?|Hlt]; [assumption|].
    assert (m_GridSize st * m_GridSize st * m_GridSize st <= 8) by nia. lia.
  - assert (27 <= m_GridSize st * m_GridSize st * m_GridSize st) by nia. lia.
Qed.

End FrameLoopExtras.

Section ViewIndependence.
Context (E : Engine).

Lemma Update_view_ext (inp : FrameInput) (st st' : AppState) :
  camera st = camera st' ->
  camera (Update E inp st) = camera (Update E inp st') /\
  m_ViewProjMatrix (Update E inp st) = m_ViewProjMatrix (Update E inp st') /\
  m_RotationMatrix (Update E inp st) = m_RotationMatrix (Update E inp st').
Proof. intros H. unfold Update. cbn [camera m_ViewProjMatrix m_RotationMatrix]. now rewrite H. Qed.

Lemma run_view_ext (evs : list Event) (st st' : AppState) :
  camera st = camera st' ->
  m_ViewProjMatrix st = m_ViewProjMatrix st' ->
  m_RotationMatrix st = m_RotationMatrix st' ->
  camera (run E evs st).1 = camera (run E (List.filter is_update evs) st').1 /\
  m_ViewProjMatrix (run E evs st).1 =
    m_ViewProjMatrix (run E (List.filter is_update evs) st').1 /\
  m_RotationMatrix (run E evs st).1 =
    m_RotationMatrix (run E (List.filter is_update evs) st').1.
Proof.
  revert st st'. induction evs as [|ev evs IH]; intros st st' Hc Hv Hr.
  - repeat split; assumption.
  - rewrite run_cons. cbn [fst List.filter].
    destruct ev as [[g|]|inp|]; cbn [is_update]; rewrite step_state.
    + now apply IH.
    + now apply IH.
    + rewrite run_cons, step_state. cbn [fst].
      destruct (Update_view_ext inp st st' Hc) as (H1 & H2 & H3). now apply IH.
    + now apply IH.
Qed.

(** X10: the camera and the two matrices after any sequence of calls are
    those the calls of [Update] alone would have produced: renders and
    slider changes, however many and wherever they fall, leave them
    alone. *)
Theorem view_depends_on_updates_only (evs : list Event) (st : AppState) :
  camera (run E evs st).1 = camera (run E (List.filter is_update evs) st).1 /\
  m_ViewProjMatrix (run E evs st).1 =
    m_ViewProjMatrix (run E (List.filter is_update evs) st).1 /\
  m_RotationMatrix (run E evs st).1 =
    m_RotationMatrix (run E (List.filter is_update evs) st).1.
Proof. now apply run_view_ext. Qed.
End ViewIndependence.

(** ** The pipeline layout and the buffers *)

Section BufferExtras.
Context (E : Engine).

Lemma run_uploads_fit (cap : Z) (evs : list Event) (st : AppState) :
  1496 <= cap -> Forall (upload_fits cap) (run E evs st).2.
Proof.
  intros Hcap. revert st. induction evs as [|ev evs IH]; intros st.
  - apply Forall_nil_2.
  - rewrite run_cons. cbn [snd]. apply Forall_app. split; [|apply IH].
    destruct ev as [[g|]|inp|]; cbn [step UpdateUI]; unfold Render;
      try rewrite PopulateInstanceBuffer_eq; cbn [snd app];
      repeat (apply Forall_cons; split; [cbn; lia || exact I|]);
      apply Forall_nil_2.
Qed.

(** X11: the instance buffer is created with room for [MaxInstances]
    records of 68 bytes; when [MaxInstances] is at least 22, the upload
    of [CreateInstanceBuffer] and every upload of the frames that follow
    stay within the buffer. *)
Theorem uploads_fit_instance_buffer (MaxInstances : Z) (evs : list Event)
    (st : AppState) :
  22 <= MaxInstances ->
  let '(st1, calls, cmds) := CreateInstanceBuffer E MaxInstances st in
  capacity InstanceBuffer calls = Some (68 * MaxInstances) /\
  Forall (upload_fits (68 * MaxInstances)) (cmds ++ (run E evs st1).2).
Proof.
  intros Hmax. unfold CreateInstanceBuffer. rewrite PopulateInstanceBuffer_eq.
  split; [reflexivity|].
  apply Forall_app. split.
  - apply Forall_cons. split; [cbn; lia|apply Forall_nil_2].
  - apply run_uploads_fit. lia.
Qed.

(** X12: the layout declared for the pipeline matches the data the
    frames supply: the per-instance attributes of slot 1 take 68 bytes,
    the size of an instance record; the attributes are numbered 0 to 6 in
    order; and the uniform buffer created for the constants has exactly
    the size of the matrices each frame writes into it. *)
Theorem layout_matches_frame_data (st st' : AppState) :
  slot_stride 1 LayoutElems = sizeof_InstanceData /\
  slot_stride 0 LayoutElems = 5 * sizeof_float /\
  map InputIndex LayoutElems = seqZ 0 (Z.of_nat (length LayoutElems)) /\
  Forall (fun c => match c with
                   | MapWrite buf CBConstants =>
                       capacity buf (CreatePipelineState st') =
                         Some (sizeof_float4x4 * Z.of_nat (length CBConstants))
                   | _ => True
                   end) (Render E st).2.
Proof.
  split; [reflexivity|]. split; [reflexivity|]. split; [reflexivity|].
  unfold Render. rewrite PopulateInstanceBuffer_eq. cbn [snd app].
  repeat (apply Forall_cons; split; [exact I || reflexivity|]).
  apply Forall_nil_2.
Qed.
End BufferExtras.

(** ** Conversions between double and single precision *)



(** ** The texture array builder: failures and the index map *)

Lemma string_app_length (s t : string) :
  String.length (s +:+ t) = (String.length s + String.length t)%nat.
Proof.
  induction s as [|a s IH]; [reflexivity|].
  change (String a s +:+ t) with (String a (s +:+ t)).
  cbn [String.length]. now rewrite IH.
Qed.

Lemma string_app_inj_r (t s1 s2 : string) : s1 +:+ t = s2 +:+ t -> s1 = s2.
Proof.
  revert s2. induction s1 as [|a s1 IH]; intros [|b s2] Heq.
  - reflexivity.
  - apply (f_equal String.length) in Heq.
    rewrite !string_app_length in Heq. cbn [String.length] in Heq. lia.
  - apply (f_equal String.length) in Heq.
    rewrite !string_app_length in Heq. cbn [String.length] in Heq. lia.
  - change (String a (s1 +:+ t) = String b (s2 +:+ t)) in Heq.
    injection Heq as -> Heq. f_equal. now apply IH.
Qed.

(** X14: textures of different indices are read from different files. *)
Theorem FileName_distinct (a b : Z) : a <> b -> FileName a <> FileName b.
Proof.
  intros Hab Heq. apply Hab. unfold FileName in Heq.
  apply (inj (String.app "DGLogo")) in Heq.
  apply string_app_inj_r in Heq.
  now apply (inj pretty).
Qed.

Lemma FileName_distinct_witness : 1 <> 2 /\ FileName 1 <> FileName 2.
Proof. split; [lia|]. apply (FileName_distinct 1 2). lia. Defined.

Section TextureArrayFailures.
Context {TextureSubResData : Type} `{Inhabited TextureSubResData}.
Variable CreateTextureLoaderFromFile : string -> option (@ITextureLoader TextureSubResData).
Variable L : Z -> @ITextureLoader TextureSubResData.

(** One iteration of the loading loop (lines 133-145). *)
Local Abbreviation load_step :=
  (fun (acc : option (list ITextureLoader)) (tex : Z) =>
     TexLoaders ← acc;
     loader ← CreateTextureLoaderFromFile (FileName tex);
     let TexLoaders := TexLoaders ++ [loader] in
     first ← head TexLoaders;
     if decide (tex = 0 \/ GetTextureDesc loader = GetTextureDesc first)
     then Some TexLoaders else None).






(** X17: when the textures load and agree, every entry of the
    initialisation data is filled, none is left at its default: entry [i]
    holds level [i mod MipLevels] of image [i / MipLevels], and there is
    no entry beyond [NumTextures * MipLevels]. *)
Theorem subresource_of_index (NumTextures : Z) :
  let M := MipLevels (GetTextureDesc (L 0)) in
  0 < NumTextures ->
  0 <= M ->
  NumTextures * M < Uint32_modulus ->
  NumTextures < Uint32_modulus ->
  (forall tex, 0 <= tex < NumTextures ->
     CreateTextureLoaderFromFile (FileName tex) = Some (L tex) /\
     GetTextureDesc (L tex) = GetTextureDesc (L 0)) ->
  exists (TexArrDesc : TextureDesc) (InitData : TextureData),
    LoadTextures CreateTextureLoaderFromFile NumTextures = Some (TexArrDesc, InitData) /\
    (forall i, 0 <= i < NumTextures * M ->
       pSubResources InitData !! Z.to_nat i =
         Some (GetSubresourceData (L (i / M)) (i mod M) 0)) /\
    (forall i : nat, NumTextures * M <= Z.of_nat i -> pSubResources InitData !! i = None).
Proof.
  intros M HN HM Hsmall HN32 Hfiles.
  destruct (Z_of_nat_complete NumTextures) as [n ->]; [lia|].
  unfold LoadTextures.
  rewrite (load_loaders_ok _ L n Hfiles). cbn [mbind option_bind].
  assert (Hhead : head (L <$> seqZ 0 (Z.of_nat n)) = Some (L 0))
    by (rewrite seqZ_cons by lia; reflexivity).
  rewrite Hhead. cbn [mbind option_bind].
  set (desc := set_array_fields (Z.of_nat n) (GetTextureDesc (L 0))).
  assert (HA : ArraySize desc = Z.of_nat n).
  { cbn. unfold to_Uint32. apply Z.mod_small. lia. }
  assert (HMd : MipLevels desc = M) by reflexivity.
  destruct (fill_SubresData_ok L n desc HA) as [Hlen Hget];
    [rewrite HMd; exact HM|rewrite HA, HMd; exact Hsmall|].
  rewrite HMd in Hlen, Hget.
  eexists _, _. split; [reflexivity|]. cbn [pSubResources]. split.
  - intros i Hi.
    assert (HMpos : 0 < M) by nia.
    pose proof (Z.div_mod i M ltac:(lia)) as Hdm.
    pose proof (Z.mod_pos_bound i M HMpos) as Hmod.
    assert (Hdiv : 0 <= i / M < Z.of_nat n).
    { split; [apply Z.div_pos; lia|apply Z.div_lt_upper_bound; lia]. }
    rewrite <- (Hget (i / M) (i mod M) Hdiv Hmod). f_equal. f_equal. lia.
  - intros i Hi. apply lookup_ge_None. rewrite Hlen. lia.
Qed.
End TextureArrayFailures.

(** ** Start-up *)

Section StartUp.
Context {TextureSubResData : Type} `{Inhabited TextureSubResData}.
Context (E : Engine).
Variable CreateTextureLoaderFromFile : string -> option (@ITextureLoader TextureSubResData).

(** X18: [Initialize] fails exactly when [LoadTextures] does.  When it
    succeeds it has uploaded the 22 records once and advanced the shared
    angle once, leaving the camera and the grid size as they were: after
    start-up from the initial state and any sequence of calls, the angle
    is [PI_F] advanced once more than the number of renders and slider
    changes. *)
Theorem start_up_then_frames (MaxInstances NumTextures : Z) (evs : list Event)
    (g : Z) (gamma : bool) (vp rot : float4x4) :
  let st0 := initial_state g gamma vp rot in
  (LoadTextures CreateTextureLoaderFromFile NumTextures = None ->
   Initialize E MaxInstances NumTextures CreateTextureLoaderFromFile st0 = None) /\
  (forall texture,
     LoadTextures CreateTextureLoaderFromFile NumTextures = Some texture ->
     exists st1 calls cmds,
       Initialize E MaxInstances NumTextures CreateTextureLoaderFromFile st0 =
         Some (st1, calls, cmds, texture) /\
       camera st1 = camera_init /\ m_GridSize st1 = g /\
       length (uploaded cmds) = 22%nat /\
       capacity InstanceBuffer calls = Some (sizeof_InstanceData * MaxInstances) /\
       angle (run E evs st1).1 =
         Nat.iter (S (length (List.filter populates evs))) advance PI_F).
Proof.
  intros st0. unfold Initialize, CreateInstanceBuffer.
  rewrite PopulateInstanceBuffer_eq. split.
  - intros ->. reflexivity.
  - intros texture ->. cbn [mbind option_bind].
    eexists _, _, _. split; [reflexivity|].
    split; [reflexivity|]. split; [reflexivity|].
    split; [cbn [uploaded flat_map app]; now rewrite app_nil_r, length_map|].
    split; [reflexivity|].
    rewrite run_angle, Nat.iter_succ_r. cbn [angle set_angle st0 initial_state].
    now replace angle_init with PI_F by (vm_compute; reflexivity).
Qed.
End StartUp.

(** ** Runs of the further properties on concrete inputs *)

Lemma last_pressed_button_sets_view_witness :
  let inp := Inputs.pressing [FrontRight; Up] Inputs.rest in
  let c' := camera (Update Reference.engine inp (Reference.start 1)) in
  Button inp Up = true /\ (yaw c', pitch c') = ((0#1)%f32, (PI_F / (2#1))%f32).
Proof.
  intros inp c'. split; [reflexivity|].
  destruct (last_pressed_button_sets_view Reference.engine inp (Reference.start 1) Up)
    as (Hview & _).
  - reflexivity.
  - intros b' Hr. destruct b'; try reflexivity; cbn in Hr; lia.
  - exact Hview.
Defined.

Lemma angles_depend_on_pointer_only_witness :
  let inp := Reference.with_drag (40#1)%f32 (7#1)%f32 Inputs.rest in
  let inp' := Inputs.with_keys (F64.of_Z 1)
                (Reference.with_drag (40#1)%f32 (99#1)%f32 Inputs.rest) in
  same_pointer_input inp inp' /\
  angles (camera (Update Reference.engine inp (Reference.start 1))) =
  angles (camera (Update Inputs.blind inp' (Reference.start 1))).
Proof.
  intros inp inp'.
  assert (Hs : same_pointer_input inp inp') by (repeat split).
  split; [exact Hs|].
  apply (angles_depend_on_pointer_only Reference.engine Inputs.blind inp inp');
    [exact Hs|reflexivity].
Defined.

Lemma wheel_zero_or_nan_keeps_distance_witness :
  let inp := Reference.with_wheel S754_nan Inputs.rest in
  distance (camera (Update Reference.engine inp (Reference.start 1))) = (20#1)%f32.
Proof.
  intros inp.
  rewrite (wheel_zero_or_nan_keeps_distance Reference.engine inp (Reference.start 1));
    [reflexivity|]. left. reflexivity.
Defined.

Lemma wheel_infinite_saturates_witness :
  let inp := Reference.with_wheel (S754_infinity false) Inputs.rest in
  is_finite (distance (camera (Reference.start 1))) = true /\
  distance (camera (Update Reference.engine inp (Reference.start 1))) = (1#1)%f32.
Proof.
  intros inp. split; [reflexivity|].
  apply (wheel_infinite_saturates Reference.engine inp (Reference.start 1) false);
    reflexivity.
Defined.

Lemma idle_update_is_idempotent_witness :
  no_input Inputs.rest /\
  camera (Update Reference.engine Inputs.rest
            (Update Reference.engine Inputs.rest (Reference.start 1))) =
  camera (Update Reference.engine Inputs.rest (Reference.start 1)).
Proof.
  assert (Hn : no_input Inputs.rest) by (repeat split).
  split; [exact Hn|].
  apply (idle_update_is_idempotent Reference.engine Inputs.rest Inputs.rest
           (Reference.start 1) Hn Hn).
Defined.

Lemma button_pitch_after_next_clamp_witness :
  pitch (camera (Update Reference.engine Inputs.rest
                   (Update Reference.engine (Inputs.pressing [Up] Inputs.rest)
                      (Reference.start 1)))) = pitchLimit.
Proof.
  apply (button_pitch_after_next_clamp Reference.engine
           (Inputs.pressing [Up] Inputs.rest) Inputs.rest (Reference.start 1) Up).
  - reflexivity.
  - intros b' Hr. destruct b'; try reflexivity; cbn in Hr; lia.
  - intros b'. reflexivity.
Defined.

Lemma render_uses_last_slider_value_witness :
  let evs := [EvUpdateUI (Some 3); EvRender; EvUpdateUI (Some 5)] in
  1 <= last_slider 1 evs <= 32 /\
  List.filter is_draw
    (Render Reference.engine (run Reference.engine evs (Reference.start 1)).1).2 =
    [DrawIndexed {| IndexType := VT_UINT32; NumIndices := 36;
                    NumInstances := 125; Flags := DRAW_FLAG_VERIFY_ALL |}].
Proof.
  intros evs. split; [cbn; lia|].
  apply (render_uses_last_slider_value Reference.engine evs (Reference.start 1)).
  cbn. lia.
Defined.

Lemma draw_exceeds_uploaded_records_witness :
  1 <= 3 <= 32 /\
  exists n : Z,
    List.filter is_draw (Render Reference.engine (Reference.start 3)).2 =
      [DrawIndexed {| IndexType := VT_UINT32; NumIndices := 36;
                      NumInstances := n; Flags := DRAW_FLAG_VERIFY_ALL |}] /\
    22 < n.
Proof.
  split; [lia|].
  destruct (draw_exceeds_uploaded_records Reference.engine (Reference.start 3))
    as (n & Hd & Hl & Hn); [cbn; lia|].
  exists n. split; [exact Hd|]. rewrite Hl in Hn. apply Hn. cbn. lia.
Defined.

Lemma uploads_fit_instance_buffer_witness :
  22 <= 32768 /\
  Forall (upload_fits (68 * 32768))
    ((CreateInstanceBuffer Reference.engine 32768 (Reference.start 1)).2 ++
     (run Reference.engine [EvRender]
        (CreateInstanceBuffer Reference.engine 32768 (Reference.start 1)).1.1).2).
Proof.
  split; [lia|].
  pose proof (uploads_fit_instance_buffer Reference.engine 32768 [EvRender]
                (Reference.start 1)) as Hfit.
  destruct (CreateInstanceBuffer Reference.engine 32768 (Reference.start 1))
    as [[st1 calls] cmds].
  apply Hfit. lia.
Defined.



Lemma subresource_of_index_witness :
  exists (TexArrDesc : TextureDesc) (InitData : TextureData),
    LoadTextures Demo.files 4 = Some (TexArrDesc, InitData) /\
    pSubResources InitData !! 7%nat = Some (2, 1) /\
    pSubResources InitData !! 12%nat = None.
Proof.
  destruct (subresource_of_index Demo.files Demo.loader 4)
    as (d & i & Hload & Hget & Hnone);
    try (cbn; lia); try reflexivity.
  - intros tex Htex.
    assert (Hc : tex = 0 \/ tex = 1 \/ tex = 2 \/ tex = 3) by lia.
    destruct Hc as [-> | [-> | [-> | ->]]]; split; reflexivity.
  - exists d, i. split; [exact Hload|]. split.
    + apply (Hget 7). cbn. lia.
    + apply Hnone. cbn. lia.
Defined.

Lemma start_up_then_frames_witness :
  exists st1 calls cmds texture,
    Initialize Reference.engine 32768 4 Demo.files (Reference.start 5) =
      Some (st1, calls, cmds, texture) /\
    angle (run Reference.engine [EvRender; EvRender] st1).1 =
      Nat.iter 3 advance PI_F.
Proof.
  destruct (LoadTextures Demo.files 4) as [texture|] eqn:Hload;
    [|vm_compute in Hload; discriminate].
  destruct (start_up_then_frames Reference.engine Demo.files 32768 4
              [EvRender; EvRender] 5 false float4x4_default float4x4_default)
    as (_ & Hok).
  destruct (Hok texture Hload) as (st1 & calls & cmds & Hinit & _ & _ & _ & _ & Hangle).
  exists st1, calls, cmds, texture. split; [exact Hinit|exact Hangle].
Defined.
